(** * azure.cli.core.auth.util: token and error translation helpers

    A shallow embedding of [azure/cli/core/auth/util.py] and the proofs of
    the properties its specification states.

    Python values are modelled as follows.
    - A [str] is the list of its Unicode code points (numbers in [N]).
    - A [dict] with string keys is a [gmap] from [str] to values.
    - A call either returns a value or raises an exception: the [res] monad.
    - The standard codecs the module calls ([str.encode], [bytes.decode],
      [base64.urlsafe_b64encode], [base64.urlsafe_b64decode]) are modelled in
      [Utf8] and [Base64].
    - The collaborators outside the module ([in_cloud_console],
      [json.loads], azure-mgmt-core's [_parse_challenges]) are parameters. *)

From Stdlib Require Import ZArith NArith List Ascii String Bool Lia ZifyNat.
From stdpp Require Import base option list gmap.

Set Warnings "-register-all".
Set Default Proof Using "Type".

(* ===================================================================== *)
(** * The Python data model *)
(* ===================================================================== *)

(** A Python [str]: the sequence of its code points. *)
Abbreviation str := (list N).

(** A Python [bytes] object: the sequence of its bytes. *)
Abbreviation bytes := (list N) (only parsing).

Module Py.

(** An ASCII literal of the source as a [str]. *)
Definition lit (s : string) : str :=
  map N_of_ascii (list_ascii_of_string s).

(** The line feed the source writes as a backslash followed by n. *)
Definition NL : str := [10%N].

(** The values that travel through the module: JSON-like data. *)
Inductive value : Type :=
| VNone
| VBool (b : bool)
| VInt (z : Z)
| VStr (s : str)
| VList (l : list value)
| VDict (d : gmap str value).

(** Truth value testing ([if x:], [x or y], [not x]). *)
Definition truthy (v : value) : bool :=
  match v with
  | VNone => false
  | VBool b => b
  | VInt z => negb (z =? 0)%Z
  | VStr s => negb (Nat.eqb (length s) 0)
  | VList l => negb (Nat.eqb (length l) 0)
  | VDict d => negb (Nat.eqb (size d) 0)
  end.

(** [x or y] on values whose evaluation cannot fail. *)
Definition py_or (x y : value) : value := if truthy x then x else y.

(** Exceptions.  [ValueError] stands for the class itself and for
    [binascii.Error]; [UnicodeEncodeError], [UnicodeDecodeError] and
    [json.JSONDecodeError] are further subclasses of it, kept apart.
    [KeyError] and [IndexError] are the subclasses of [LookupError]. *)
Inductive exn : Type :=
| AuthenticationError (msg : value) (recommendation : str)
| KeyError (key : str)
| IndexError
| AttributeError
| TypeError
| ValueError
| UnicodeEncodeError
| UnicodeDecodeError
| JSONDecodeError.

Definition is_ValueError (e : exn) : bool :=
  match e with
  | ValueError | UnicodeEncodeError | UnicodeDecodeError
  | JSONDecodeError => true
  | _ => false
  end.

Definition is_LookupError (e : exn) : bool :=
  match e with
  | KeyError _ | IndexError => true
  | _ => false
  end.

Definition is_AuthenticationError (e : exn) : bool :=
  match e with
  | AuthenticationError _ _ => true
  | _ => false
  end.

(** The outcome of a call. *)
Inductive res (A : Type) : Type :=
| Return (a : A)
| Raise (e : exn).
Arguments Return {A} a.
Arguments Raise {A} e.

Definition bind {A B : Type} (m : res A) (k : A -> res B) : res B :=
  match m with
  | Return a => k a
  | Raise e => Raise e
  end.

Definition returns {A : Type} (m : res A) : bool :=
  match m with Return _ => true | Raise _ => false end.

(** The call raises an exception that satisfies [p]. *)
Definition raises {A : Type} (p : exn -> bool) (m : res A) : bool :=
  match m with Return _ => false | Raise e => p e end.

(** A codec failure ([None]) raised as the exception [e]. *)
Definition or_raise {A : Type} (e : exn) (o : option A) : res A :=
  match o with
  | Some a => Return a
  | None => Raise e
  end.

(** [try: m  except ValueError: h]. *)
Definition try_except_ValueError {A : Type} (m : res A) (h : res A) : res A :=
  match m with
  | Return a => Return a
  | Raise e => if is_ValueError e then h else Raise e
  end.

(** [s == t] on strings. *)
Definition str_eqb (s t : str) : bool := bool_decide (s = t).

(** [s.endswith(suffix)]. *)
Definition endswith (s suffix : str) : bool :=
  (length suffix <=? length s)%nat
  && str_eqb (drop (length s - length suffix) s) suffix.

(** [s[:k]] for any integer [k]: a negative bound counts from the end,
    and bounds outside the string are clamped. *)
Definition slice_to (s : str) (k : Z) : str :=
  let n := Z.of_nat (length s) in
  let stop := if (k <? 0)%Z then Z.max 0 (n + k) else Z.min k n in
  take (Z.to_nat stop) s.

(** [s.startswith(prefix)]. *)
Fixpoint startswith (s prefix : str) : bool :=
  match prefix, s with
  | [], _ => true
  | p :: prefix', c :: s' => (c =? p)%N && startswith s' prefix'
  | _ :: _, [] => false
  end.

(** [sub in s] on strings: [sub] occurs in [s]. *)
Fixpoint str_in (sub s : str) : bool :=
  startswith s sub
  || match s with
     | [] => false
     | _ :: s' => str_in sub s'
     end.

(** [len(s)] as a Python integer. *)
Definition len {A : Type} (s : list A) : Z := Z.of_nat (length s).

(** [sep.join(parts)]. *)
Fixpoint join (sep : str) (parts : list str) : str :=
  match parts with
  | [] => []
  | [p] => p
  | p :: ps => p ++ sep ++ join sep ps
  end.

(** [s.split(sep)] for a one-character separator: the result always has
    at least one element. *)
Fixpoint split (sep : N) (s : str) : list str :=
  match s with
  | [] => [[]]
  | c :: s' =>
      if (c =? sep)%N then [] :: split sep s'
      else match split sep s' with
           | h :: t => (c :: h) :: t
           | [] => [[c]]
           end
  end.

(** [l[i]] for a non-negative literal index [i]. *)
Definition index {A : Type} (l : list A) (i : nat) : res A :=
  or_raise IndexError (l !! i).

(** [s * k]: repetition; a count that is not positive gives the empty
    string. *)
Definition repeat_str (s : str) (k : Z) : str :=
  mjoin (replicate (Z.to_nat k) s).

(** [d[k]] on a dict. *)
Definition getitem {V : Type} (d : gmap str V) (k : str) : res V :=
  or_raise (KeyError k) (d !! k).

(** [d.get(k)] on a dict of values. *)
Definition get (d : gmap str value) (k : str) : value :=
  default VNone (d !! k).

(** [k in d]. *)
Definition contains {V : Type} (k : str) (d : gmap str V) : bool :=
  bool_decide (is_Some (d !! k)).

End Py.

Export Py.

Notation "'do' x <- m ; k" := (bind m (fun x => k))
  (at level 10, x name, m at level 100, k at level 200).

(* ===================================================================== *)
(** * The UTF-8 codec: [str.encode()] and [bytes.decode()] *)
(* ===================================================================== *)

Module Utf8.
Local Open Scope N_scope.

(** The code points U+D800..U+DFFF, which have no UTF-8 encoding. *)
Definition is_surrogate (c : N) : bool := (0xD800 <=? c) && (c <=? 0xDFFF).

(** A code point that [str.encode()] accepts. *)
Definition encodable (c : N) : bool := (c <? 0x110000) && negb (is_surrogate c).

(** A string that [str.encode()] accepts: no lone surrogate in it. *)
Definition well_formed (s : str) : bool := forallb encodable s.

(** The bytes of one code point; [None] is [UnicodeEncodeError]. *)
Definition encode_char (c : N) : option bytes :=
  if c <? 0x80 then Some [c]
  else if c <? 0x800 then Some [0xC0 + c / 64; 0x80 + c mod 64]
  else if c <? 0x10000 then
    if is_surrogate c then None
    else Some [0xE0 + c / 4096; 0x80 + (c / 64) mod 64; 0x80 + c mod 64]
  else if c <? 0x110000 then
    Some [0xF0 + c / 262144; 0x80 + (c / 4096) mod 64;
          0x80 + (c / 64) mod 64; 0x80 + c mod 64]
  else None.

(** [s.encode()] with the default encoding and strict error handling. *)
Fixpoint encode (s : str) : option bytes :=
  match s with
  | [] => Some []
  | c :: s' =>
      match encode_char c, encode s' with
      | Some b, Some bs => Some (b ++ bs)
      | _, _ => None
      end
  end.

(** A continuation byte 10xxxxxx. *)
Definition is_cont (b : N) : bool := (0x80 <=? b) && (b <? 0xC0).

(** [b.decode()] with the default encoding and strict error handling:
    truncated, overlong, surrogate and out-of-range sequences are
    rejected; [None] is [UnicodeDecodeError]. *)
Fixpoint decode (bs : bytes) : option str :=
  match bs with
  | [] => Some []
  | b0 :: r0 =>
      if b0 <? 0x80 then cons b0 <$> decode r0
      else if b0 <? 0xC0 then None
      else if b0 <? 0xE0 then
        match r0 with
        | b1 :: r1 =>
            let c := (b0 - 0xC0) * 64 + (b1 - 0x80) in
            if is_cont b1 && (0x80 <=? c)
            then cons c <$> decode r1 else None
        | _ => None
        end
      else if b0 <? 0xF0 then
        match r0 with
        | b1 :: b2 :: r2 =>
            let c := (b0 - 0xE0) * 4096 + (b1 - 0x80) * 64 + (b2 - 0x80) in
            if is_cont b1 && is_cont b2 && (0x800 <=? c)
               && negb (is_surrogate c)
            then cons c <$> decode r2 else None
        | _ => None
        end
      else if b0 <? 0xF8 then
        match r0 with
        | b1 :: b2 :: b3 :: r3 =>
            let c := (b0 - 0xF0) * 262144 + (b1 - 0x80) * 4096
                     + (b2 - 0x80) * 64 + (b3 - 0x80) in
            if is_cont b1 && is_cont b2 && is_cont b3
               && (0x10000 <=? c) && (c <? 0x110000)
            then cons c <$> decode r3 else None
        | _ => None
        end
      else None
  end.

End Utf8.

(* ===================================================================== *)
(** * The base64 codec: [base64.urlsafe_b64encode] and
      [base64.urlsafe_b64decode] *)
(* ===================================================================== *)

Module Base64.
Local Open Scope N_scope.

(** The padding character [=]. *)
Definition BASE64_PAD : N := 61.

(** [table_b2a_base64]: the standard alphabet A-Z a-z 0-9 + /. *)
Definition table_b2a_base64 (v : N) : N :=
  if v <? 26 then 65 + v
  else if v <? 52 then 97 + (v - 26)
  else if v <? 62 then 48 + (v - 52)
  else if v =? 62 then 43
  else 47.

(** [table_a2b_base64]: the value of a character of the standard
    alphabet, [None] for any other character. *)
Definition table_a2b_base64 (c : N) : option N :=
  if (65 <=? c) && (c <=? 90) then Some (c - 65)
  else if (97 <=? c) && (c <=? 122) then Some (c - 97 + 26)
  else if (48 <=? c) && (c <=? 57) then Some (c - 48 + 52)
  else if c =? 43 then Some 62
  else if c =? 47 then Some 63
  else None.

(** [_urlsafe_encode_translation]: [+] becomes [-] and [/] becomes [_]. *)
Definition urlsafe_encode_translation (c : N) : N :=
  if c =? 43 then 45 else if c =? 47 then 95 else c.

(** [_urlsafe_decode_translation]: [-] becomes [+] and [_] becomes [/]. *)
Definition urlsafe_decode_translation (c : N) : N :=
  if c =? 45 then 43 else if c =? 95 then 47 else c.

(** [binascii.b2a_base64(s, newline=False)]: three bytes give four
    characters; a last group of one or two bytes is padded. *)
Fixpoint b2a_base64 (bs : bytes) : bytes :=
  match bs with
  | [] => []
  | [b0] =>
      [table_b2a_base64 (b0 / 4); table_b2a_base64 ((b0 mod 4) * 16);
       BASE64_PAD; BASE64_PAD]
  | [b0; b1] =>
      [table_b2a_base64 (b0 / 4);
       table_b2a_base64 ((b0 mod 4) * 16 + b1 / 16);
       table_b2a_base64 ((b1 mod 16) * 4); BASE64_PAD]
  | b0 :: b1 :: b2 :: rest =>
      table_b2a_base64 (b0 / 4)
      :: table_b2a_base64 ((b0 mod 4) * 16 + b1 / 16)
      :: table_b2a_base64 ((b1 mod 16) * 4 + b2 / 64)
      :: table_b2a_base64 (b2 mod 64)
      :: b2a_base64 rest
  end.

(** [base64.urlsafe_b64encode(s)]. *)
Definition urlsafe_b64encode (bs : bytes) : bytes :=
  map urlsafe_encode_translation (b2a_base64 bs).

(** The loop of [binascii.a2b_base64] in its default, non-strict mode.
    [quad_pos] is the position in the current group of four characters,
    [leftchar] the bits not yet written, [pads] the number of padding
    characters seen since the last data character.  Characters outside
    the alphabet are skipped; a padding sequence that completes the group
    ends the decoding; input that ends inside a group is an error. *)
Fixpoint a2b_base64_loop (data : bytes) (quad_pos leftchar pads : N)
  : option bytes :=
  match data with
  | [] => if quad_pos =? 0 then Some [] else None
  | this_ch :: rest =>
      if this_ch =? BASE64_PAD then
        if (2 <=? quad_pos) && (4 <=? quad_pos + (pads + 1))
        then Some []
        else a2b_base64_loop rest quad_pos leftchar
               (if 2 <=? quad_pos then pads + 1 else pads)
      else
        match table_a2b_base64 this_ch with
        | None => a2b_base64_loop rest quad_pos leftchar pads
        | Some v =>
            if quad_pos =? 0 then a2b_base64_loop rest 1 v 0
            else if quad_pos =? 1 then
              cons (leftchar * 4 + v / 16)
                <$> a2b_base64_loop rest 2 (v mod 16) 0
            else if quad_pos =? 2 then
              cons (leftchar * 16 + v / 4)
                <$> a2b_base64_loop rest 3 (v mod 4) 0
            else
              cons (leftchar * 64 + v) <$> a2b_base64_loop rest 0 0 0
        end
  end.

(** [binascii.a2b_base64(s)]; [None] is [binascii.Error]. *)
Definition a2b_base64 (data : bytes) : option bytes :=
  a2b_base64_loop data 0 0 0.

(** [_bytes_from_decode_data(s)] on a [str]: its ASCII encoding; [None]
    is the [ValueError] raised for a character outside ASCII. *)
Definition bytes_from_decode_data (s : str) : option bytes :=
  if forallb (fun c => c <? 128) s then Some s else None.

(** [base64.urlsafe_b64decode(s)] on a [str]; [None] is [ValueError]
    (of which [binascii.Error] is a subclass). *)
Definition urlsafe_b64decode (s : str) : option bytes :=
  b ← bytes_from_decode_data s;
  a2b_base64 (map urlsafe_decode_translation b).

(** The 64 values of a base64 digit. *)
Definition sextets : list N := map N.of_nat (seq 0 64).

(** What the decoder needs of a character of the encoder. *)
Definition digit_ok (v : N) : bool :=
  let c := urlsafe_encode_translation (table_b2a_base64 v) in
  (c <? 128) && negb (c =? BASE64_PAD)
  && negb (urlsafe_decode_translation c =? BASE64_PAD)
  && match table_a2b_base64 (urlsafe_decode_translation c) with
     | Some w => w =? v
     | None => false
     end.

(** The character that [urlsafe_b64encode] writes for a digit, as the
    decoder sees it after its translation. *)
Definition seen (v : N) : N :=
  urlsafe_decode_translation (urlsafe_encode_translation (table_b2a_base64 v)).

End Base64.

(* ===================================================================== *)
(** * The module [azure.cli.core.auth.util] *)
(* ===================================================================== *)

Module AuthUtil.
Import Utf8 Base64.

(** The keyword arguments [**kwargs] that reach the login message:
    [scopes] and [claims], each [None] when it is not given. *)
Record kwargs : Type := { scopes : option (list str); claims : option str }.

(** azure-mgmt-core's [_HttpChallenge]. *)
Record HttpChallenge : Type :=
  { scheme : str; parameters : gmap str str }.

(** The response of the Track 1 SDK: [headers_get k] is
    [response.headers.get(k)]. *)
Record Response : Type := { headers_get : str -> option str }.

(** [v.get(k)] on a value: only a dict has the method. *)
Definition value_get (v : value) (k : str) : res value :=
  match v with
  | VDict d => Return (get d k)
  | _ => Raise AttributeError
  end.

(** [v[k]] on a value with a string key. *)
Definition value_getitem (v : value) (k : str) : res value :=
  match v with
  | VDict d => getitem d k
  | _ => Raise TypeError
  end.

(** [if claims:] and [elif scopes:] on optional arguments. *)
Definition given {A : Type} (o : option (list A)) : bool :=
  match o with
  | Some (_ :: _) => true
  | _ => false
  end.

(** [not result] for the result of MSAL, a dict or [None]. *)
Definition not_result (result : option (gmap str value)) : bool :=
  match result with
  | None => true
  | Some d => negb (truthy (VDict d))
  end.

Definition encode_claims (claims : str) : res str :=
  do is_base64 <-
    try_except_ValueError
      (do _ <- or_raise ValueError (urlsafe_b64decode claims); Return true)
      (Return false);
  do claims <-
    (if negb is_base64 then
       do raw <- or_raise UnicodeEncodeError (Utf8.encode claims);
       or_raise UnicodeDecodeError (Utf8.decode (urlsafe_b64encode raw))
     else Return claims);
  Return claims.

Definition decode_claims (claims : str) : res str :=
  do claims <-
    try_except_ValueError
      (do raw <- or_raise ValueError (urlsafe_b64decode claims);
       or_raise UnicodeDecodeError (Utf8.decode raw))
      (Return claims);
  Return claims.

Definition _generate_login_command
    (scopes : option (list str)) (claims : option str) : res str :=
  let login_command := [lit "az login"] in
  if given claims then
    do encoded <- encode_claims (default [] claims);
    let login_command := login_command ++ [lit "--claims " ++ encoded] in
    Return (lit "az logout" ++ NL ++ join (lit " ") login_command)
  else
    let login_command :=
      if given scopes
      then login_command
           ++ [lit "--scope " ++ join (lit " ") (default [] scopes)]
      else login_command in
    Return (join (lit " ") login_command).

Definition resource_to_scopes (resource : str) : list str :=
  let scope := resource ++ lit "/.default" in
  [scope].

(** The loop [for s in suffixes] of [scopes_to_resource]: the first
    suffix that [scope] ends with is cut off. *)
Fixpoint strip_first_suffix (scope : str) (suffixes : list str) : str :=
  match suffixes with
  | [] => scope
  | s :: suffixes' =>
      if endswith scope s then slice_to scope (- len s)
      else strip_first_suffix scope suffixes'
  end.

Definition scopes_to_resource (scopes : list str) : res str :=
  do scope <- index scopes 0;
  let suffixes := [lit "/.default"; lit "/user_impersonation"] in
  Return (strip_first_suffix scope suffixes).

(** msal's [decode_part(raw)] with its default encoding: the padding
    that a JWT leaves out is put back, then the part is decoded as
    base64url and as UTF-8. *)
Definition decode_part (raw : str) : res str :=
  let raw := raw ++ repeat_str (lit "=") ((- len raw) mod 4) in
  do output <- or_raise ValueError (urlsafe_b64decode raw);
  or_raise UnicodeDecodeError (Utf8.decode output).

(** [claims] is absent or empty. *)
Definition no_claims (claims : option str) : Prop :=
  claims = None \/ claims = Some [].

(** [scopes] is absent or empty. *)
Definition no_scopes (scopes : option (list str)) : Prop :=
  scopes = None \/ scopes = Some [].

(** The keyword arguments hold no string that [str.encode()] rejects. *)
Definition kw_well_formed (kw : kwargs) : bool :=
  match claims kw with
  | Some c => well_formed c
  | None => true
  end.

(** The dict [{'username': username, 'tenantId': tenantId}]. *)
Definition identity (username tenantId : value) : value :=
  VDict (<[lit "username" := username]> (<[lit "tenantId" := tenantId]> ∅)).

Section Collaborators.

(** [azure.cli.core.util.in_cloud_console()]. *)
Variable in_cloud_console : bool.

(** [json.loads]; [None] is [json.JSONDecodeError]. *)
Variable json_loads : str -> option value.

(** [azure.mgmt.core.policies._authentication._parse_challenges]. *)
Variable _parse_challenges : option str -> res (list HttpChallenge).

Definition _generate_login_message (kw : kwargs) : res str :=
  do login_command <- _generate_login_command (scopes kw) (claims kw);
  let login_msg :=
    lit "To re-authenticate, please "
    ++ (if in_cloud_console then lit "refresh Azure Portal."
        else lit "run:" ++ NL ++ login_command) in
  let contact_admin_msg :=
    lit "If the problem persists, please contact your tenant administrator." in
  Return (login_msg ++ NL ++ NL ++ contact_admin_msg).

Definition aad_error_handler (error : gmap str value) (kw : kwargs)
  : res value :=
  let msg := get error (lit "error_description") in
  do login_message <- _generate_login_message kw;
  Raise (AuthenticationError msg login_message).

Definition check_result (result : option (gmap str value)) (kw : kwargs)
  : res value :=
  if not_result result then
    Raise (AuthenticationError
             (VStr (lit "Can't find token from MSAL cache."))
             (lit "To re-authenticate, please run:" ++ NL ++ lit "az login"))
  else
    let result := default ∅ result in
    do _ <- (if contains (lit "error") result
             then aad_error_handler result kw
             else Return VNone);
    if contains (lit "id_token_claims") result then
      do idt <- getitem result (lit "id_token_claims");
      do preferred <- value_get idt (lit "preferred_username");
      do username <- (if truthy preferred then Return preferred
                      else value_getitem idt (lit "upn"));
      do tenantId <- value_getitem idt (lit "tid");
      Return (VDict (<[lit "username" := username]>
                       (<[lit "tenantId" := tenantId]> ∅)))
    else Return VNone.

Definition decode_access_token (access_token : str) : res value :=
  do part <- index (split 46 access_token) 1;
  do decoded_str <- decode_part part;
  or_raise JSONDecodeError (json_loads decoded_str).

Definition _extract_claims (challenge : option str) : res (option str) :=
  do parsed_challenges <- _parse_challenges challenge;
  do no_claims <-
    (if negb (len parsed_challenges =? 1)%Z then Return true
     else do first <- index parsed_challenges 0;
          Return (negb (contains (lit "claims") (parameters first))));
  if no_claims then Return None
  else
    do first <- index parsed_challenges 0;
    do encoded_claims <- getitem (parameters first) (lit "claims");
    let padding_needed := ((- len encoded_claims) mod 4)%Z in
    Return (Some (encoded_claims ++ repeat_str (lit "=") padding_needed)).

Definition handle_response_401_track1 (response : Response) : res str :=
  let challenge := headers_get response (lit "WWW-Authenticate") in
  do claims <- _extract_claims challenge;
  let recommendation :=
    lit "The access token has expired or been revoked by Continuous Access Evaluation. "
    ++ lit "Silent re-authentication will be attempted in the future."
    ++ NL in
  do login_message <-
    _generate_login_message {| scopes := None; claims := claims |};
  Return (recommendation ++ login_message).

End Collaborators.

End AuthUtil.

(* ===================================================================== *)
(** * Concrete inputs used in the examples *)
(* ===================================================================== *)

Module Examples.
Import AuthUtil.

(** The keyword arguments of a call without any. *)
Definition no_kwargs : kwargs := {| scopes := None; claims := None |}.

(** The identity claims of the counterexample: [preferred_username] is
    present and empty. *)
Definition empty_preferred_claims : gmap str value :=
  <[lit "preferred_username" := VStr []]>
    (<[lit "upn" := VStr (lit "u@x.com")]>
       (<[lit "tid" := VStr (lit "t1")]> ∅)).

Definition empty_preferred_result : gmap str value :=
  <[lit "id_token_claims" := VDict empty_preferred_claims]> ∅.

(** A challenge parser that finds no challenge. *)
Definition parse_nothing (_ : option str) : res (list HttpChallenge) :=
  Return [].

(** A challenge parser that finds one challenge with the claims [abcde]. *)
Definition parse_one_claims (_ : option str) : res (list HttpChallenge) :=
  Return [{| scheme := lit "Bearer";
             parameters := <[lit "claims" := lit "abcde"]> ∅ |}].

(** A challenge parser that finds one challenge without claims. *)
Definition parse_one_plain (_ : option str) : res (list HttpChallenge) :=
  Return [{| scheme := lit "Bearer";
             parameters := <[lit "error" := lit "invalid_token"]> ∅ |}].

(** A result of MSAL that reports an error. *)
Definition error_result : gmap str value :=
  <[lit "error" := VStr (lit "interaction_required")]>
    (<[lit "error_description" := VStr (lit "bad")]> ∅).

(** Keyword arguments whose claims are one lone surrogate, U+DC00. *)
Definition surrogate_kwargs : kwargs :=
  {| scopes := None; claims := Some [0xDC00%N] |}.

(** A response without any header. *)
Definition bare_response : Response := {| headers_get := fun _ => None |}.

(** A JSON parser that accepts only the document [{}]. *)
Definition loads_empty_object (s : str) : option value :=
  if str_eqb s (lit "{}") then Some (VDict ∅) else None.

End Examples.

(* ===================================================================== *)
(** * Vocabulary for the further properties *)
(* ===================================================================== *)

Module Vocabulary.
Import Base64 AuthUtil.

(** A character that the base64url decoder reads as data: a letter, a
    digit, [+], [/], [-] or [_]. *)
Definition is_data_char (c : N) : bool :=
  match table_a2b_base64 (urlsafe_decode_translation c) with
  | Some _ => true
  | None => false
  end.

(** The number of data characters of a string. *)
Definition data_chars (s : str) : nat := length (List.filter is_data_char s).

(** Every character of the string is ASCII. *)
Definition is_ascii (s : str) : bool := forallb (fun c => c <? 128)%N s.

(** The string has no padding character [=]. *)
Definition no_pad (s : str) : bool :=
  forallb (fun c => negb (c =? BASE64_PAD)%N) s.

(** The fixed sentence that opens the recommendation of
    [handle_response_401_track1], with the line feed that ends it. *)
Definition revoked_sentence : str :=
  lit "The access token has expired or been revoked by Continuous Access Evaluation. Silent re-authentication will be attempted in the future."
  ++ NL.

(** The fixed last paragraph of the login message. *)
Definition contact_admin_msg : str :=
  lit "If the problem persists, please contact your tenant administrator.".

(** The login message around the text [action] that follows
    [To re-authenticate, please]. *)
Definition login_message_with (action : str) : str :=
  lit "To re-authenticate, please " ++ action ++ NL ++ NL ++ contact_admin_msg.

(** A challenge parser that finds one [Bearer] challenge whose only
    parameter is [claims], with the value [v]. *)
Definition parse_claims (v : str) (_ : option str)
  : res (list HttpChallenge) :=
  Return [{| scheme := lit "Bearer";
             parameters := <[lit "claims" := v]> ∅ |}].

End Vocabulary.

(* ===================================================================== *)
(** * Facts about the data model *)
(* ===================================================================== *)

Module PyFacts.

Lemma len_app {A : Type} (s t : list A) : len (s ++ t) = (len s + len t)%Z.
Proof. unfold len. rewrite length_app. lia. Qed.

Lemma len_nonneg {A : Type} (s : list A) : (0 <= len s)%Z.
Proof. unfold len. lia. Qed.

(** [endswith] decides that [suffix] is a suffix of [s]. *)
Lemma endswith_suffix (s suffix : str) :
  endswith s suffix = true <-> suffix `suffix_of` s.
Proof.
  unfold endswith, str_eqb. rewrite andb_true_iff, Nat.leb_le.
  rewrite bool_decide_eq_true. split.
  - intros [_ <-]. apply suffix_drop.
  - intros [r ->]. rewrite length_app. split; [lia|].
    replace (length r + length suffix - length suffix)%nat
      with (length r) by lia.
    apply drop_app_length.
Qed.

Lemma endswith_app (r suffix : str) : endswith (r ++ suffix) suffix = true.
Proof. apply endswith_suffix. by exists r. Qed.

Lemma endswith_false (s suffix : str) :
  endswith s suffix = false <-> ~ suffix `suffix_of` s.
Proof.
  rewrite <- endswith_suffix. destruct (endswith s suffix); split; congruence.
Qed.

(** Cutting a non-empty suffix off with a negative bound. *)
Lemma slice_to_app_neg (r suffix : str) :
  suffix <> [] -> slice_to (r ++ suffix) (- len suffix) = r.
Proof.
  intros Hne. unfold slice_to, len.
  assert (0 < length suffix)%nat by (destruct suffix; simpl; [done|lia]).
  destruct (Z.ltb_spec (- Z.of_nat (length suffix)) 0) as [_|]; [|lia].
  rewrite length_app.
  replace (Z.to_nat _) with (length r) by lia.
  apply take_app_length.
Qed.

Lemma index_cons {A : Type} (x : A) (l : list A) : index (x :: l) 0 = Return x.
Proof. reflexivity. Qed.

Lemma index_nil {A : Type} (i : nat) : index (@nil A) i = Raise IndexError.
Proof. reflexivity. Qed.

Lemma repeat_str_length (c : N) (k : Z) :
  length (repeat_str [c] k) = Z.to_nat k.
Proof.
  unfold repeat_str. induction (Z.to_nat k) as [|n IH]; simpl; [done|].
  by rewrite IH.
Qed.

Lemma repeat_str_0 (s : str) : repeat_str s 0 = [].
Proof. reflexivity. Qed.

Lemma repeat_str_Forall (c : N) (k : Z) :
  Forall (fun x => x = c) (repeat_str [c] k).
Proof.
  unfold repeat_str. induction (Z.to_nat k) as [|n IH]; simpl; [done|].
  by constructor.
Qed.

(** [split] never gives the empty list. *)
Lemma split_length (sep : N) (s : str) : (1 <= length (split sep s))%nat.
Proof.
  induction s as [|c s IH]; simpl; [lia|].
  destruct (c =? sep)%N; simpl; [lia|].
  destruct (split sep s); simpl in *; lia.
Qed.

(** The number of parts is one more than the number of separators. *)
Lemma split_length_count (sep : N) (s : str) :
  length (split sep s) = S (length (filter (fun c => c = sep) s)).
Proof.
  induction s as [|c s IH]; simpl; [done|].
  destruct (N.eqb_spec c sep) as [->|Hne].
  - rewrite filter_cons_True by done. simpl. by rewrite IH.
  - rewrite filter_cons_False by done.
    destruct (split sep s); simpl in *; [lia|done].
Qed.

Lemma contains_true {V : Type} (k : str) (d : gmap str V) :
  contains k d = true <-> is_Some (d !! k).
Proof. unfold contains. apply bool_decide_eq_true. Qed.

Lemma contains_false {V : Type} (k : str) (d : gmap str V) :
  contains k d = false <-> d !! k = None.
Proof.
  unfold contains. rewrite bool_decide_eq_false. symmetry.
  apply eq_None_not_Some.
Qed.

End PyFacts.

(* ===================================================================== *)
(** * Resources and scopes *)
(* ===================================================================== *)

Module ScopeFacts.
Import AuthUtil PyFacts.

Lemma default_suffix_nonempty : lit "/.default" <> [].
Proof. discriminate. Qed.

Lemma user_impersonation_nonempty : lit "/user_impersonation" <> [].
Proof. discriminate. Qed.

(** What the loop over the two suffixes computes on the first scope. *)
Lemma scopes_to_resource_cons (scope : str) (rest : list str) :
  scopes_to_resource (scope :: rest) =
    Return (if endswith scope (lit "/.default")
            then slice_to scope (- len (lit "/.default"))
            else if endswith scope (lit "/user_impersonation")
                 then slice_to scope (- len (lit "/user_impersonation"))
                 else scope).
Proof. reflexivity. Qed.

(** C1: converting a resource to scopes and back gives the resource
    again, for every resource string, also one that ends in a slash. *)
Theorem scopes_to_resource_resource_to_scopes (r : str) :
  scopes_to_resource (resource_to_scopes r) = Return r.
Proof.
  unfold resource_to_scopes.
  rewrite scopes_to_resource_cons, endswith_app.
  by rewrite slice_to_app_neg by apply default_suffix_nonempty.
Qed.

(** C5: of a non-empty scope list only the first element counts; a
    trailing [/.default] is cut off; failing that, a trailing
    [/user_impersonation]; a scope with neither suffix is returned as it
    is. *)
Theorem scopes_to_resource_first_scope (scope : str) (rest : list str) :
  scopes_to_resource (scope :: rest) = scopes_to_resource [scope]
  /\ (forall r, scope = r ++ lit "/.default" ->
       scopes_to_resource (scope :: rest) = Return r)
  /\ (forall r, ~ lit "/.default" `suffix_of` scope ->
       scope = r ++ lit "/user_impersonation" ->
       scopes_to_resource (scope :: rest) = Return r)
  /\ (~ lit "/.default" `suffix_of` scope ->
      ~ lit "/user_impersonation" `suffix_of` scope ->
      scopes_to_resource (scope :: rest) = Return scope)
  /\ scopes_to_resource
       (lit "https://management.core.windows.net//.default" :: rest)
     = Return (lit "https://management.core.windows.net/").
Proof.
  rewrite !scopes_to_resource_cons.
  split; [done|]. split; [|split; [|split]].
  - intros r ->. rewrite endswith_app.
    by rewrite slice_to_app_neg by apply default_suffix_nonempty.
  - intros r Hno ->. apply endswith_false in Hno. rewrite Hno.
    rewrite endswith_app.
    by rewrite slice_to_app_neg by apply user_impersonation_nonempty.
  - intros H1 H2. apply endswith_false in H1, H2. by rewrite H1, H2.
  - vm_compute. reflexivity.
Qed.

Lemma scopes_to_resource_first_scope_witness :
  let scope := lit "https://graph.microsoft.com/user_impersonation" in
  let plain := lit "https://graph.microsoft.com" in
  scopes_to_resource (lit "api://x/.default" :: [lit "other"])
    = Return (lit "api://x")
  /\ scopes_to_resource (scope :: [lit "other/.default"])
     = Return (lit "https://graph.microsoft.com")
  /\ scopes_to_resource (plain :: [lit "other/.default"]) = Return plain.
Proof.
  assert (Hno : forall s suf : str, endswith s suf = false ->
                                   ~ suf `suffix_of` s)
    by (intros s suf; apply endswith_false).
  split; [|split].
  - destruct (scopes_to_resource_first_scope
                (lit "api://x/.default") [lit "other"])
      as (_ & H & _).
    apply H. reflexivity.
  - destruct (scopes_to_resource_first_scope
                (lit "https://graph.microsoft.com/user_impersonation")
                [lit "other/.default"])
      as (_ & _ & H & _).
    apply H; [apply Hno; vm_compute; reflexivity | reflexivity].
  - destruct (scopes_to_resource_first_scope
                (lit "https://graph.microsoft.com") [lit "other/.default"])
      as (_ & _ & _ & H & _).
    apply H; apply Hno; vm_compute; reflexivity.
Defined.

End ScopeFacts.

(* ===================================================================== *)
(** * The UTF-8 codec round-trips *)
(* ===================================================================== *)

Module Utf8Facts.
Import Utf8.
Local Open Scope N_scope.

(** Quotients and remainders are handed to [lia] as their equations. *)
Ltac Zify.zify_post_hook ::= Z.to_euclidean_division_equations.

(** Case analysis on the comparisons of a goal, closing the impossible
    cases by arithmetic. *)
Ltac ncases :=
  repeat match goal with
    | |- context [?a <? ?b] =>
        destruct (N.ltb_spec a b); try lia
    | |- context [?a <=? ?b] =>
        destruct (N.leb_spec a b); try lia
    | |- context [?a =? ?b] =>
        destruct (N.eqb_spec a b); try lia
    end.

Lemma encode_char_byte (c : N) (b : bytes) :
  encode_char c = Some b -> Forall (fun x => x < 256) b.
Proof.
  unfold encode_char, is_surrogate.
  ncases; simpl; intros [= <-];
    rewrite ?Forall_cons, ?Forall_nil; intuition lia.
Qed.

Lemma encode_byte (s : str) (b : bytes) :
  encode s = Some b -> Forall (fun x => x < 256) b.
Proof.
  revert b. induction s as [|c s IH]; simpl; intros b.
  - intros [= <-]. apply Forall_nil. done.
  - destruct (encode_char c) as [bc|] eqn:Hc; [|done].
    destruct (encode s) as [bs|]; [|done].
    intros [= <-]. apply Forall_app. split; [|by apply IH].
    by apply encode_char_byte with c.
Qed.

Lemma encode_char_encodable (c : N) :
  is_Some (encode_char c) <-> encodable c = true.
Proof.
  unfold encode_char, encodable, is_surrogate.
  ncases; simpl; split; try done; try (by intros [? [=]]); by eexists.
Qed.

(** [str.encode()] succeeds exactly on the strings without a surrogate or
    an out-of-range code point. *)
Lemma encode_is_Some (s : str) :
  is_Some (encode s) <-> well_formed s = true.
Proof.
  unfold well_formed. induction s as [|c s IH]; simpl.
  - split; [done | by eexists].
  - rewrite andb_true_iff, <- IH, <- encode_char_encodable.
    destruct (encode_char c), (encode s); split;
      try (intros [? [=]]); try (intros [[? [=]] [? [=]]]);
      try (intros [_ [? [=]]]); try (intros [[? [=]] _]); eauto.
Qed.

Lemma decode_cons (b0 : N) (r0 : bytes) :
  decode (b0 :: r0) =
    if b0 <? 0x80 then cons b0 <$> decode r0
    else if b0 <? 0xC0 then None
    else if b0 <? 0xE0 then
      match r0 with
      | b1 :: r1 =>
          let c := (b0 - 0xC0) * 64 + (b1 - 0x80) in
          if is_cont b1 && (0x80 <=? c)
          then cons c <$> decode r1 else None
      | _ => None
      end
    else if b0 <? 0xF0 then
      match r0 with
      | b1 :: b2 :: r2 =>
          let c := (b0 - 0xE0) * 4096 + (b1 - 0x80) * 64 + (b2 - 0x80) in
          if is_cont b1 && is_cont b2 && (0x800 <=? c)
             && negb (is_surrogate c)
          then cons c <$> decode r2 else None
      | _ => None
      end
    else if b0 <? 0xF8 then
      match r0 with
      | b1 :: b2 :: b3 :: r3 =>
          let c := (b0 - 0xF0) * 262144 + (b1 - 0x80) * 4096
                   + (b2 - 0x80) * 64 + (b3 - 0x80) in
          if is_cont b1 && is_cont b2 && is_cont b3
             && (0x10000 <=? c) && (c <? 0x110000)
          then cons c <$> decode r3 else None
      | _ => None
      end
    else None.
Proof. reflexivity. Qed.

(** Decoding the bytes of one code point gives the code point back. *)
Lemma decode_encode_char (c : N) (b rest : bytes) :
  encode_char c = Some b -> decode (b ++ rest) = cons c <$> decode rest.
Proof.
  unfold encode_char, is_surrogate.
  ncases; simpl andb; cbv iota; intros [= <-]; cbn [app];
    rewrite decode_cons; cbv beta iota zeta; unfold is_cont, is_surrogate.
  - ncases. done.
  - ncases. simpl. do 2 f_equal. lia.
  - ncases. simpl. do 2 f_equal. lia.
  - ncases. simpl. do 2 f_equal. lia.
  - ncases. simpl. do 2 f_equal. lia.
Qed.

(** [s.encode().decode() == s] whenever [s.encode()] succeeds. *)
Lemma decode_encode (s : str) (b : bytes) :
  encode s = Some b -> decode b = Some s.
Proof.
  revert b. induction s as [|c s IH]; simpl; intros b.
  - by intros [= <-].
  - destruct (encode_char c) as [bc|] eqn:Hc; [|done].
    destruct (encode s) as [bs|]; [|done].
    intros [= <-]. rewrite (decode_encode_char c) by done.
    by rewrite (IH bs).
Qed.

(** ASCII bytes decode to themselves. *)
Lemma decode_ascii (b : bytes) :
  Forall (fun x => x < 128) b -> decode b = Some b.
Proof.
  induction 1 as [|x b Hx _ IH]; [done|].
  rewrite decode_cons. destruct (N.ltb_spec x 128); [|lia].
  by rewrite IH.
Qed.

End Utf8Facts.

(* ===================================================================== *)
(** * The base64 codec round-trips *)
(* ===================================================================== *)

Module Base64Facts.
Import Base64.
Local Open Scope N_scope.

Lemma sextets_complete (v : N) : v < 64 -> In v sextets.
Proof.
  intros Hv. unfold sextets. apply in_map_iff.
  exists (N.to_nat v). split; [lia|]. apply in_seq. lia.
Qed.

Lemma digit_ok_all (v : N) : v < 64 -> digit_ok v = true.
Proof.
  intros Hv.
  assert (Hall : forallb digit_ok sextets = true) by (vm_compute; reflexivity).
  rewrite forallb_forall in Hall. apply Hall. by apply sextets_complete.
Qed.

Lemma seen_not_pad (v : N) : v < 64 -> (seen v =? BASE64_PAD) = false.
Proof.
  intros Hv. pose proof (digit_ok_all v Hv) as H. unfold digit_ok in H.
  fold (seen v) in H.
  destruct (seen v =? BASE64_PAD); [|done].
  rewrite !andb_true_iff in H. by destruct H as [[_ ?] _].
Qed.

Lemma seen_digit (v : N) : v < 64 -> table_a2b_base64 (seen v) = Some v.
Proof.
  intros Hv. pose proof (digit_ok_all v Hv) as H. unfold digit_ok in H.
  fold (seen v) in H. rewrite !andb_true_iff in H. destruct H as [_ H].
  destruct (table_a2b_base64 (seen v)) as [w|]; [|done].
  apply N.eqb_eq in H. by subst.
Qed.

Lemma encoded_ascii (v : N) :
  v < 64 -> urlsafe_encode_translation (table_b2a_base64 v) < 128.
Proof.
  intros Hv. pose proof (digit_ok_all v Hv) as H. unfold digit_ok in H.
  rewrite !andb_true_iff in H. destruct H as [[[H _] _] _].
  by apply N.ltb_lt in H.
Qed.

Lemma pad_translation :
  urlsafe_decode_translation (urlsafe_encode_translation BASE64_PAD)
  = BASE64_PAD.
Proof. reflexivity. Qed.

(** One step of the decoder on a data character. *)
Lemma loop_digit (v : N) (rest : bytes) (quad_pos leftchar pads : N) :
  v < 64 ->
  a2b_base64_loop (seen v :: rest) quad_pos leftchar pads =
    if quad_pos =? 0 then a2b_base64_loop rest 1 v 0
    else if quad_pos =? 1 then
      cons (leftchar * 4 + v / 16) <$> a2b_base64_loop rest 2 (v mod 16) 0
    else if quad_pos =? 2 then
      cons (leftchar * 16 + v / 4) <$> a2b_base64_loop rest 3 (v mod 4) 0
    else cons (leftchar * 64 + v) <$> a2b_base64_loop rest 0 0 0.
Proof.
  intros Hv. cbn [a2b_base64_loop].
  by rewrite seen_not_pad, seen_digit.
Qed.

(** A full group of four characters gives three bytes. *)
Lemma loop_quad (v0 v1 v2 v3 : N) (rest : bytes) :
  v0 < 64 -> v1 < 64 -> v2 < 64 -> v3 < 64 ->
  a2b_base64_loop (seen v0 :: seen v1 :: seen v2 :: seen v3 :: rest) 0 0 0 =
    (fun out => (v0 * 4 + v1 / 16) :: ((v1 mod 16) * 16 + v2 / 4)
                :: ((v2 mod 4) * 64 + v3) :: out)
      <$> a2b_base64_loop rest 0 0 0.
Proof.
  intros. rewrite !loop_digit by done. simpl N.eqb. cbv iota.
  by destruct (a2b_base64_loop rest 0 0 0).
Qed.

(** The padding that closes a group of two data characters. *)
Lemma loop_pad2 (rest : bytes) (leftchar : N) :
  a2b_base64_loop (BASE64_PAD :: BASE64_PAD :: rest) 2 leftchar 0 = Some [].
Proof. reflexivity. Qed.

(** The padding that closes a group of three data characters. *)
Lemma loop_pad1 (rest : bytes) (leftchar : N) :
  a2b_base64_loop (BASE64_PAD :: rest) 3 leftchar 0 = Some [].
Proof. reflexivity. Qed.

(** Induction on a list of bytes in groups of three. *)
Lemma bytes_ind3 (P : bytes -> Prop) :
  P [] -> (forall a, P [a]) -> (forall a b, P [a; b]) ->
  (forall a b c l, P l -> P (a :: b :: c :: l)) ->
  forall l, P l.
Proof.
  intros H0 H1 H2 H3 l.
  cut (P l /\ (forall a, P (a :: l)) /\ (forall a b, P (a :: b :: l))).
  { tauto. }
  induction l as [|x l (IH0 & IH1 & IH2)]; [by auto|].
  split; [apply IH1|]. split; [intros a; apply IH2|].
  intros a b. by apply H3.
Qed.

(** What the decoder sees of an encoded group. *)
Lemma seen_b2a_base64_cons3 (b0 b1 b2 : N) (rest : bytes) :
  map urlsafe_decode_translation (urlsafe_b64encode (b0 :: b1 :: b2 :: rest))
  = seen (b0 / 4) :: seen ((b0 mod 4) * 16 + b1 / 16)
    :: seen ((b1 mod 16) * 4 + b2 / 64) :: seen (b2 mod 64)
    :: map urlsafe_decode_translation (urlsafe_b64encode rest).
Proof. reflexivity. Qed.

Lemma seen_b2a_base64_1 (b0 : N) :
  map urlsafe_decode_translation (urlsafe_b64encode [b0])
  = [seen (b0 / 4); seen ((b0 mod 4) * 16); BASE64_PAD; BASE64_PAD].
Proof. reflexivity. Qed.

Lemma seen_b2a_base64_2 (b0 b1 : N) :
  map urlsafe_decode_translation (urlsafe_b64encode [b0; b1])
  = [seen (b0 / 4); seen ((b0 mod 4) * 16 + b1 / 16);
     seen ((b1 mod 16) * 4); BASE64_PAD].
Proof. reflexivity. Qed.

(** The decoder loop inverts the encoder. *)
Lemma a2b_base64_loop_encode (bs : bytes) :
  Forall (fun x => x < 256) bs ->
  a2b_base64_loop
    (map urlsafe_decode_translation (urlsafe_b64encode bs)) 0 0 0 = Some bs.
Proof.
  induction bs as [|b0|b0 b1|b0 b1 b2 rest IH] using bytes_ind3.
  - done.
  - rewrite Forall_cons. intros [H0 _].
    rewrite seen_b2a_base64_1, !loop_digit by lia. simpl N.eqb. cbv iota.
    rewrite loop_pad2. simpl. do 2 f_equal. lia.
  - rewrite !Forall_cons. intros (H0 & H1 & _).
    rewrite seen_b2a_base64_2, !loop_digit by lia. simpl N.eqb. cbv iota.
    rewrite loop_pad1. simpl. f_equal. f_equal; [lia|]. f_equal. lia.
  - rewrite !Forall_cons. intros (H0 & H1 & H2 & Hrest).
    rewrite seen_b2a_base64_cons3, loop_quad by lia.
    rewrite IH by done. simpl. f_equal.
    f_equal; [lia|]. f_equal; [lia|]. f_equal. lia.
Qed.

(** Every character of an encoding is ASCII. *)
Lemma urlsafe_b64encode_ascii (bs : bytes) :
  Forall (fun x => x < 256) bs ->
  Forall (fun c => c < 128) (urlsafe_b64encode bs).
Proof.
  assert (Hpad : urlsafe_encode_translation BASE64_PAD < 128) by done.
  induction bs as [|b0|b0 b1|b0 b1 b2 rest IH] using bytes_ind3;
    rewrite ?Forall_cons; unfold urlsafe_b64encode; cbn [b2a_base64 map].
  - intros _. by apply Forall_nil.
  - intros [H0 _]. rewrite !Forall_cons, Forall_nil.
    repeat split; try done; apply encoded_ascii; lia.
  - intros (H0 & H1 & _). rewrite !Forall_cons, Forall_nil.
    repeat split; try done; apply encoded_ascii; lia.
  - intros (H0 & H1 & H2 & Hrest). rewrite !Forall_cons.
    repeat split; try (apply encoded_ascii; lia). by apply IH.
Qed.

Lemma bytes_from_decode_data_ascii (s : str) :
  Forall (fun c => c < 128) s -> bytes_from_decode_data s = Some s.
Proof.
  intros H. unfold bytes_from_decode_data.
  replace (forallb _ s) with true; [done|]. symmetry.
  apply forallb_forall. intros c Hc. apply N.ltb_lt.
  rewrite Forall_forall in H. apply H. by apply list_elem_of_In.
Qed.

(** [urlsafe_b64decode(urlsafe_b64encode(b)) == b]. *)
Lemma urlsafe_b64decode_encode (bs : bytes) :
  Forall (fun x => x < 256) bs ->
  urlsafe_b64decode (urlsafe_b64encode bs) = Some bs.
Proof.
  intros H. unfold urlsafe_b64decode.
  rewrite bytes_from_decode_data_ascii by by apply urlsafe_b64encode_ascii.
  simpl. by apply a2b_base64_loop_encode.
Qed.

End Base64Facts.

(* ===================================================================== *)
(** * The claims codec *)
(* ===================================================================== *)

Module ClaimsFacts.
Import Utf8 Base64 AuthUtil.

(** A string already in base64url is returned as it is. *)
Lemma encode_claims_base64 (x : str) :
  is_Some (urlsafe_b64decode x) -> encode_claims x = Return x.
Proof. intros [raw H]. unfold encode_claims. by rewrite H. Qed.

(** Any other string is encoded as UTF-8 and then as base64url. *)
Lemma encode_claims_plain (x : str) :
  urlsafe_b64decode x = None ->
  encode_claims x =
    match Utf8.encode x with
    | Some raw => Return (urlsafe_b64encode raw)
    | None => Raise UnicodeEncodeError
    end.
Proof.
  intros H. unfold encode_claims. rewrite H. simpl.
  destruct (Utf8.encode x) as [raw|] eqn:Hraw; simpl; [|done].
  rewrite Utf8Facts.decode_ascii; [done|].
  apply Base64Facts.urlsafe_b64encode_ascii.
  by apply Utf8Facts.encode_byte with x.
Qed.

(** The encoder returns on every string that [str.encode()] accepts. *)
Lemma encode_claims_returns (x : str) :
  well_formed x = true -> exists y, encode_claims x = Return y.
Proof.
  intros Hx. destruct (urlsafe_b64decode x) as [raw|] eqn:H.
  - exists x. by apply encode_claims_base64.
  - rewrite encode_claims_plain by done.
    apply Utf8Facts.encode_is_Some in Hx as [raw ->]. by eexists.
Qed.

(** The output of the encoder always decodes as base64url. *)
Lemma encode_claims_is_base64 (x y : str) :
  encode_claims x = Return y -> is_Some (urlsafe_b64decode y).
Proof.
  destruct (urlsafe_b64decode x) as [raw|] eqn:H.
  - rewrite encode_claims_base64 by done. intros [= <-]. by rewrite H.
  - rewrite encode_claims_plain by done.
    destruct (Utf8.encode x) as [raw|] eqn:Hraw; [|done].
    intros [= <-]. exists raw.
    apply Base64Facts.urlsafe_b64decode_encode.
    by apply Utf8Facts.encode_byte with x.
Qed.

(** [decode_claims] never raises. *)
Lemma decode_claims_total (y : str) :
  decode_claims y =
    Return (match urlsafe_b64decode y with
            | Some raw => default y (Utf8.decode raw)
            | None => y
            end).
Proof.
  unfold decode_claims.
  destruct (urlsafe_b64decode y) as [raw|]; simpl; [|done].
  by destruct (Utf8.decode raw).
Qed.

(** C6: [encode_claims] is idempotent.  Encoding its own output changes
    nothing; a string that decodes as base64url is returned as it is, and
    any other string is base64url-encoded once.  On a string that
    [str.encode()] rejects (a lone surrogate) the call raises, and so
    does the repeated call. *)
Theorem encode_claims_idempotent (x : str) :
  (do y <- encode_claims x; encode_claims y) = encode_claims x
  /\ (well_formed x = true ->
      exists y, encode_claims x = Return y /\ encode_claims y = Return y)
  /\ (is_Some (urlsafe_b64decode x) -> encode_claims x = Return x)
  /\ (urlsafe_b64decode x = None ->
      forall raw, Utf8.encode x = Some raw ->
      encode_claims x = Return (urlsafe_b64encode raw)
      /\ urlsafe_b64decode (urlsafe_b64encode raw) = Some raw).
Proof.
  assert (Hidem : forall y, encode_claims x = Return y ->
                            encode_claims y = Return y).
  { intros y Hy. apply encode_claims_base64.
    by apply encode_claims_is_base64 with x. }
  split; [|split; [|split]].
  - destruct (encode_claims x) as [y|e] eqn:Hy; simpl; [|done]. by apply Hidem.
  - intros Hx. destruct (encode_claims_returns x Hx) as [y Hy].
    exists y. split; [done|]. by apply Hidem.
  - apply encode_claims_base64.
  - intros Hno raw Hraw. rewrite encode_claims_plain, Hraw by done.
    split; [done|]. apply Base64Facts.urlsafe_b64decode_encode.
    by apply Utf8Facts.encode_byte with x.
Qed.

Lemma encode_claims_idempotent_witness :
  (exists y, encode_claims (lit "{x:1}") = Return y
             /\ encode_claims y = Return y)
  /\ encode_claims (lit "YWJj") = Return (lit "YWJj")
  /\ encode_claims (lit "abc") = Return (urlsafe_b64encode (lit "abc")).
Proof.
  split; [|split].
  - destruct (encode_claims_idempotent (lit "{x:1}")) as (_ & H & _).
    apply H. vm_compute. reflexivity.
  - destruct (encode_claims_idempotent (lit "YWJj")) as (_ & _ & H & _).
    apply H. vm_compute. by eexists.
  - destruct (encode_claims_idempotent (lit "abc")) as (_ & _ & _ & H).
    assert (H1 : urlsafe_b64decode (lit "abc") = None)
      by (vm_compute; reflexivity).
    assert (H2 : Utf8.encode (lit "abc") = Some (lit "abc"))
      by (vm_compute; reflexivity).
    exact (proj1 (H H1 (lit "abc") H2)).
Defined.

(** Decoding what the encoder wrote for a string it had to encode. *)
Lemma decode_claims_encoded (x : str) (raw : bytes) :
  Utf8.encode x = Some raw ->
  decode_claims (urlsafe_b64encode raw) = Return x.
Proof.
  intros Hraw. rewrite decode_claims_total.
  rewrite Base64Facts.urlsafe_b64decode_encode
    by by apply Utf8Facts.encode_byte with x.
  by rewrite (Utf8Facts.decode_encode x raw).
Qed.

(** C9: a string that the base64url decoder rejects, so that
    [encode_claims] really encodes it, comes back from [decode_claims]
    unchanged.  A string that the decoder accepts is left as it is by
    [encode_claims] and decoded by [decode_claims], so the round trip fails
    in general: [YWJj] comes back as [abc]. *)
Theorem decode_claims_encode_claims (x : str) :
  (urlsafe_b64decode x = None ->
   (do y <- encode_claims x; decode_claims y)
   = (do _ <- encode_claims x; Return x))
  /\ (urlsafe_b64decode x = None -> well_formed x = true ->
      exists y, encode_claims x = Return y /\ decode_claims y = Return x)
  /\ (forall raw, urlsafe_b64decode x = Some raw ->
      encode_claims x = Return x
      /\ decode_claims x = Return (default x (Utf8.decode raw)))
  /\ (is_Some (urlsafe_b64decode (lit "YWJj"))
      /\ (do y <- encode_claims (lit "YWJj"); decode_claims y)
         = Return (lit "abc")
      /\ lit "abc" <> lit "YWJj").
Proof.
  split; [|split; [|split]].
  - intros Hno. rewrite encode_claims_plain by done.
    destruct (Utf8.encode x) as [raw|] eqn:Hraw; simpl; [|done].
    by apply decode_claims_encoded.
  - intros Hno Hwf. rewrite encode_claims_plain by done.
    apply Utf8Facts.encode_is_Some in Hwf as [raw Hraw]. rewrite Hraw.
    exists (urlsafe_b64encode raw). split; [done|].
    by apply decode_claims_encoded.
  - intros raw Hraw. split.
    + apply encode_claims_base64. by rewrite Hraw.
    + by rewrite decode_claims_total, Hraw.
  - split; [by vm_compute; eexists|]. split; [by vm_compute|].
    vm_compute. discriminate.
Qed.

Lemma decode_claims_encode_claims_witness :
  (exists y, encode_claims (lit "{x:1}") = Return y
             /\ decode_claims y = Return (lit "{x:1}"))
  /\ decode_claims (lit "YWJj")
     = Return (default (lit "YWJj") (Utf8.decode (lit "abc"))).
Proof.
  split.
  - destruct (decode_claims_encode_claims (lit "{x:1}")) as (_ & H & _).
    apply H; vm_compute; reflexivity.
  - destruct (decode_claims_encode_claims (lit "YWJj")) as (_ & _ & H & _).
    assert (H1 : urlsafe_b64decode (lit "YWJj") = Some (lit "abc"))
      by (vm_compute; reflexivity).
    exact (proj2 (H (lit "abc") H1)).
Defined.

End ClaimsFacts.

(* ===================================================================== *)
(** * The login command and the login message *)
(* ===================================================================== *)

Module LoginFacts.
Import Utf8 Base64 AuthUtil.

Lemma given_false {A : Type} (o : option (list A)) :
  o = None \/ o = Some [] -> given o = false.
Proof. by intros [-> | ->]. Qed.

Lemma given_true {A : Type} (l : list A) : l <> [] -> given (Some l) = true.
Proof. by destruct l. Qed.

(** The command without claims. *)
Lemma _generate_login_command_no_claims
    (scopes : option (list str)) (claims : option str) :
  no_claims claims ->
  _generate_login_command scopes claims =
    Return (if given scopes
            then lit "az login --scope " ++ join (lit " ") (default [] scopes)
            else lit "az login").
Proof.
  intros Hc. unfold _generate_login_command.
  rewrite (given_false claims Hc). by destruct (given scopes).
Qed.

(** The command with claims. *)
Lemma _generate_login_command_claims (scopes : option (list str)) (c : str) :
  c <> [] ->
  _generate_login_command scopes (Some c) =
    (do encoded <- encode_claims c;
     Return (lit "az logout" ++ NL ++ lit "az login --claims " ++ encoded)).
Proof.
  intros Hc. unfold _generate_login_command. rewrite given_true by done.
  simpl default. by destruct (encode_claims c).
Qed.

(** C4: the login command has three cases.  With non-empty claims it is
    [az logout], a line feed and [az login --claims] followed by the claims
    as [encode_claims] gives them, whatever the scopes are; without claims
    and with non-empty scopes it is [az login --scope] followed by the
    scopes joined by spaces; with neither it is [az login]. *)
Theorem _generate_login_command_branches
    (scopes : option (list str)) (claims : option str) :
  (forall c, claims = Some c -> c <> [] ->
     _generate_login_command scopes claims
     = (do encoded <- encode_claims c;
        Return (lit "az logout" ++ NL ++ lit "az login --claims " ++ encoded))
     /\ _generate_login_command scopes claims
        = _generate_login_command None claims
     /\ (well_formed c = true ->
         exists encoded,
           encode_claims c = Return encoded
           /\ _generate_login_command scopes claims
              = Return (lit "az logout" ++ NL
                        ++ lit "az login --claims " ++ encoded)))
  /\ (no_claims claims -> forall ss, scopes = Some ss -> ss <> [] ->
      _generate_login_command scopes claims
      = Return (lit "az login --scope " ++ join (lit " ") ss))
  /\ (no_claims claims -> no_scopes scopes ->
      _generate_login_command scopes claims = Return (lit "az login")).
Proof.
  split; [|split].
  - intros c -> Hc. rewrite !_generate_login_command_claims by done.
    split; [done|]. split; [done|]. intros Hwf.
    destruct (ClaimsFacts.encode_claims_returns c Hwf) as [encoded He].
    exists encoded. by rewrite He.
  - intros Hc ss -> Hss. rewrite _generate_login_command_no_claims by done.
    by rewrite given_true.
  - intros Hc Hs. rewrite _generate_login_command_no_claims by done.
    by rewrite (given_false scopes Hs).
Qed.

Lemma _generate_login_command_branches_witness :
  (exists encoded,
      encode_claims (lit "abc") = Return encoded
      /\ _generate_login_command (Some [lit "s1"; lit "s2"]) (Some (lit "abc"))
         = Return (lit "az logout" ++ NL ++ lit "az login --claims " ++ encoded))
  /\ _generate_login_command (Some [lit "s1"; lit "s2"]) None
     = Return (lit "az login --scope " ++ join (lit " ") [lit "s1"; lit "s2"])
  /\ _generate_login_command None None = Return (lit "az login").
Proof.
  split; [|split].
  - destruct (_generate_login_command_branches
                (Some [lit "s1"; lit "s2"]) (Some (lit "abc"))) as (H & _).
    destruct (H (lit "abc") eq_refl) as (_ & _ & H'); [discriminate|].
    apply H'. vm_compute. reflexivity.
  - destruct (_generate_login_command_branches
                (Some [lit "s1"; lit "s2"]) None) as (_ & H & _).
    apply H; [by left | reflexivity | discriminate].
  - destruct (_generate_login_command_branches None None) as (_ & _ & H).
    apply H; by left.
Defined.

End LoginFacts.

(* ===================================================================== *)
(** * The result classifier *)
(* ===================================================================== *)

Module ResultFacts.
Import Utf8 Base64 AuthUtil PyFacts Examples.

Section Classifier.
Variable in_cloud_console : bool.

Local Abbreviation check_result := (check_result in_cloud_console).
Local Abbreviation aad_error_handler :=
  (aad_error_handler in_cloud_console).
Local Abbreviation _generate_login_message :=
  (_generate_login_message in_cloud_console).

Lemma not_result_Some (d : gmap str value) :
  not_result (Some d) = false <-> d <> ∅.
Proof.
  unfold not_result, truthy. rewrite negb_false_iff, negb_true_iff.
  rewrite Nat.eqb_neq. by rewrite map_size_empty_iff.
Qed.

Lemma not_result_true (result : option (gmap str value)) :
  not_result result = true <-> result = None \/ result = Some ∅.
Proof.
  destruct result as [d|]; simpl.
  - rewrite negb_true_iff, negb_false_iff, Nat.eqb_eq, map_size_empty_iff.
    split; [intros ->; by right | by intros [|[= ->]]].
  - split; [by left|done].
Qed.

Lemma lookup_nonempty (d : gmap str value) (k : str) :
  is_Some (d !! k) -> d <> ∅.
Proof. intros [v Hv] ->. by rewrite lookup_empty in Hv. Qed.

(** The login message is built whenever the command is. *)
Lemma _generate_login_message_returns (kw : kwargs) :
  kw_well_formed kw = true -> exists m, _generate_login_message kw = Return m.
Proof.
  unfold kw_well_formed, AuthUtil._generate_login_message.
  destruct kw as [ss [c|]]; cbn [claims scopes].
  - intros Hwf. destruct c as [|c0 c].
    + rewrite LoginFacts._generate_login_command_no_claims by by right.
      by eexists.
    + rewrite LoginFacts._generate_login_command_claims by done.
      destruct (ClaimsFacts.encode_claims_returns (c0 :: c) Hwf) as [e ->].
      by eexists.
  - intros _.
    rewrite LoginFacts._generate_login_command_no_claims by by left.
    by eexists.
Qed.

(** The error handler never returns. *)
Lemma aad_error_handler_raises (error : gmap str value) (kw : kwargs) :
  returns (aad_error_handler error kw) = false.
Proof.
  unfold AuthUtil.aad_error_handler.
  by destruct (_generate_login_message kw).
Qed.

Lemma aad_error_handler_message
    (error : gmap str value) (kw : kwargs) (login_message : str) :
  _generate_login_message kw = Return login_message ->
  aad_error_handler error kw =
    Raise (AuthenticationError (get error (lit "error_description"))
                               login_message).
Proof. intros H. unfold AuthUtil.aad_error_handler. by rewrite H. Qed.

(** A result with an [error] key is handed to the error handler. *)
Lemma check_result_error (d : gmap str value) (kw : kwargs) :
  is_Some (d !! lit "error") ->
  check_result (Some d) kw = aad_error_handler d kw.
Proof.
  intros He. unfold AuthUtil.check_result.
  replace (not_result (Some d)) with false
    by (symmetry; apply not_result_Some; by apply lookup_nonempty with (lit "error")).
  simpl default. replace (contains (lit "error") d) with true
    by (symmetry; by apply contains_true).
  pose proof (aad_error_handler_raises d kw) as Hr.
  by destruct (aad_error_handler d kw).
Qed.

(** A non-empty result without an [error] key. *)
Lemma check_result_no_error (d : gmap str value) (kw : kwargs) :
  d <> ∅ -> d !! lit "error" = None ->
  check_result (Some d) kw =
    match d !! lit "id_token_claims" with
    | Some idt =>
        do preferred <- value_get idt (lit "preferred_username");
        do username <- (if truthy preferred then Return preferred
                        else value_getitem idt (lit "upn"));
        do tenantId <- value_getitem idt (lit "tid");
        Return (identity username tenantId)
    | None => Return VNone
    end.
Proof.
  intros Hd He. unfold AuthUtil.check_result.
  replace (not_result (Some d)) with false
    by (symmetry; by apply not_result_Some).
  simpl default. replace (contains (lit "error") d) with false
    by (symmetry; by apply contains_false).
  simpl bind. unfold getitem.
  destruct (d !! lit "id_token_claims") as [idt|] eqn:Hidt.
  - replace (contains (lit "id_token_claims") d) with true; [done|].
    symmetry. apply contains_true. by rewrite Hidt.
  - replace (contains (lit "id_token_claims") d) with false; [done|].
    symmetry. by apply contains_false.
Qed.

(** No path of a non-empty, error-free result raises
    [AuthenticationError]. *)
Lemma check_result_no_error_not_auth (d : gmap str value) (kw : kwargs) :
  d <> ∅ -> d !! lit "error" = None ->
  raises is_AuthenticationError (check_result (Some d) kw) = false.
Proof.
  intros Hd He. rewrite check_result_no_error by done.
  destruct (d !! lit "id_token_claims") as [idt|]; [|done].
  destruct idt as [| | | | |c]; try done.
  cbn [value_get value_getitem bind]. unfold getitem.
  destruct (truthy (get c (lit "preferred_username")));
    cbn [bind or_raise];
    destruct (c !! lit "upn"), (c !! lit "tid"); done.
Qed.

(** A string that [str.encode()] rejects is not ASCII, so the base64url
    decoder rejects it as well. *)
Lemma urlsafe_b64decode_not_well_formed (c : str) :
  well_formed c = false -> urlsafe_b64decode c = None.
Proof.
  intros Hwf. unfold urlsafe_b64decode, bytes_from_decode_data.
  replace (forallb (fun c0 => (c0 <? 128)%N) c) with false; [done|].
  symmetry. revert Hwf. unfold well_formed.
  induction c as [|a c IH]; simpl; [done|].
  intros [Ha | Hc]%andb_false_iff.
  - apply andb_false_iff. left. revert Ha.
    unfold encodable, is_surrogate.
    destruct (N.ltb_spec a 128) as [Hlt|]; [|done].
    destruct (N.ltb_spec a 0x110000); [|lia].
    destruct (N.leb_spec 0xD800 a); [lia|]. done.
  - apply andb_false_iff. right. by apply IH.
Qed.

(** On such a string [encode_claims] raises. *)
Lemma encode_claims_not_well_formed (c : str) :
  well_formed c = false -> encode_claims c = Raise UnicodeEncodeError.
Proof.
  intros Hwf.
  rewrite ClaimsFacts.encode_claims_plain
    by by apply urlsafe_b64decode_not_well_formed.
  destruct (Utf8.encode c) as [raw|] eqn:Hraw; [|done].
  rewrite (proj1 (Utf8Facts.encode_is_Some c)) in Hwf by by eexists.
  done.
Qed.

(** With such claims the login message is not built. *)
Lemma _generate_login_message_raises (kw : kwargs) :
  kw_well_formed kw = false ->
  _generate_login_message kw = Raise UnicodeEncodeError.
Proof.
  unfold kw_well_formed, AuthUtil._generate_login_message.
  destruct kw as [ss [c|]]; cbn [claims scopes]; [|done].
  intros Hwf. assert (Hc : c <> []) by by intros ->.
  rewrite LoginFacts._generate_login_command_claims by done.
  by rewrite encode_claims_not_well_formed.
Qed.

(** C2, as the code has it: [check_result] raises [AuthenticationError]
    exactly when the result is empty or absent, or has an [error] key and
    the claims of the call, if there are any, are a string that
    [str.encode()] accepts.  An empty result raises it directly; a result
    with an [error] key goes to [aad_error_handler], which never returns:
    it builds the login message first and then raises
    [AuthenticationError] with the value of [error_description] as its
    message; when the claims hold a lone surrogate the login message
    fails, and [UnicodeEncodeError] is raised in place of the
    [AuthenticationError].  A non-empty result without an [error] key
    raises no [AuthenticationError]. *)
Theorem check_result_raises
    (result : option (gmap str value)) (kw : kwargs) :
  (not_result result = true ->
   check_result result kw =
     Raise (AuthenticationError
              (VStr (lit "Can't find token from MSAL cache."))
              (lit "To re-authenticate, please run:" ++ NL ++ lit "az login")))
  /\ (forall d, result = Some d -> is_Some (d !! lit "error") ->
      check_result result kw = aad_error_handler d kw
      /\ returns (aad_error_handler d kw) = false
      /\ (forall login_message,
            _generate_login_message kw = Return login_message ->
            check_result result kw =
              Raise (AuthenticationError (get d (lit "error_description"))
                                         login_message))
      /\ (kw_well_formed kw = true ->
          exists login_message,
            check_result result kw =
              Raise (AuthenticationError (get d (lit "error_description"))
                                         login_message))
      /\ (kw_well_formed kw = false ->
          check_result result kw = Raise UnicodeEncodeError))
  /\ (forall d, result = Some d -> d <> ∅ -> d !! lit "error" = None ->
      raises is_AuthenticationError (check_result result kw) = false)
  /\ (raises is_AuthenticationError (check_result result kw) = true
      <-> not_result result = true
          \/ (kw_well_formed kw = true
              /\ exists d, result = Some d /\ is_Some (d !! lit "error"))).
Proof.
  assert (Hempty : not_result result = true ->
            check_result result kw =
              Raise (AuthenticationError
                       (VStr (lit "Can't find token from MSAL cache."))
                       (lit "To re-authenticate, please run:" ++ NL
                        ++ lit "az login"))).
  { intros H. unfold AuthUtil.check_result. by rewrite H. }
  assert (Herror : forall d login_message,
            result = Some d -> is_Some (d !! lit "error") ->
            _generate_login_message kw = Return login_message ->
            check_result result kw =
              Raise (AuthenticationError (get d (lit "error_description"))
                                         login_message)).
  { intros d m -> He Hm. rewrite check_result_error by done.
    by apply aad_error_handler_message. }
  assert (Hbad : forall d,
            result = Some d -> is_Some (d !! lit "error") ->
            kw_well_formed kw = false ->
            check_result result kw = Raise UnicodeEncodeError).
  { intros d -> He Hwf. rewrite check_result_error by done.
    unfold AuthUtil.aad_error_handler.
    by rewrite _generate_login_message_raises. }
  split; [done|]. split; [|split].
  - intros d Hd He. split; [subst; by apply check_result_error|].
    split; [apply aad_error_handler_raises|]. split; [|split].
    + intros m Hm. by apply Herror.
    + intros Hwf. destruct (_generate_login_message_returns kw Hwf) as [m Hm].
      exists m. by apply Herror.
    + intros Hwf. by apply Hbad with d.
  - intros d -> Hd He. by apply check_result_no_error_not_auth.
  - split.
    + intros Hr. destruct (not_result result) eqn:Hnr; [by left|right].
      destruct result as [d|]; [|done].
      destruct (d !! lit "error") as [v|] eqn:He.
      * destruct (kw_well_formed kw) eqn:Hwf.
        -- split; [done|]. exists d. split; [done|]. by rewrite He.
        -- rewrite (Hbad d) in Hr; [done..|by rewrite He|done].
      * apply not_result_Some in Hnr.
        by rewrite check_result_no_error_not_auth in Hr.
    + intros [Hnr | (Hwf & d & -> & He)].
      * by rewrite Hempty.
      * destruct (_generate_login_message_returns kw Hwf) as [m Hm].
        by rewrite (Herror d m).
Qed.

(** C3, as the code has it: for a result without an [error] key whose
    [id_token_claims] is a dict, [username] is the value of
    [preferred_username] when that value is truthy, and the value of [upn]
    otherwise, which is when [preferred_username] is absent, [None] or
    empty; [KeyError] is raised when [upn] is needed and absent;
    [tenantId] is the value of [tid], and [KeyError] is raised when it is
    absent.  A non-empty result with neither key gives [None]. *)
Theorem check_result_identity (d : gmap str value) (kw : kwargs) :
  d !! lit "error" = None ->
  (forall idt, d !! lit "id_token_claims" = Some (VDict idt) ->
     let preferred := get idt (lit "preferred_username") in
     (idt !! lit "preferred_username" = None -> truthy preferred = false)
     /\ (truthy preferred = true ->
         forall t, idt !! lit "tid" = Some t ->
         check_result (Some d) kw = Return (identity preferred t))
     /\ (truthy preferred = false ->
         forall u t, idt !! lit "upn" = Some u -> idt !! lit "tid" = Some t ->
         check_result (Some d) kw = Return (identity u t))
     /\ (truthy preferred = false -> idt !! lit "upn" = None ->
         check_result (Some d) kw = Raise (KeyError (lit "upn")))
     /\ (truthy preferred = true \/ is_Some (idt !! lit "upn") ->
         idt !! lit "tid" = None ->
         check_result (Some d) kw = Raise (KeyError (lit "tid"))))
  /\ (d <> ∅ -> d !! lit "id_token_claims" = None ->
      check_result (Some d) kw = Return VNone).
Proof.
  intros He. split.
  - intros idt Hidt preferred.
    assert (Hd : d <> ∅)
      by (apply lookup_nonempty with (lit "id_token_claims"); by rewrite Hidt).
    rewrite check_result_no_error, Hidt by done.
    cbn [value_get value_getitem bind]. fold preferred. unfold getitem.
    split; [|split; [|split; [|split]]].
    + intros Hnone. unfold preferred, get. by rewrite Hnone.
    + intros Ht t Htid. by rewrite Ht, Htid.
    + intros Hf u t Hupn Htid. by rewrite Hf, Hupn, Htid.
    + intros Hf Hupn. by rewrite Hf, Hupn.
    + intros Hu Htid. rewrite Htid.
      destruct (truthy preferred); [done|].
      destruct Hu as [|[u ->]]; done.
  - intros Hd Hidt. by rewrite check_result_no_error, Hidt.
Qed.

End Classifier.

Lemma check_result_raises_witness :
  check_result false (Some ∅) no_kwargs =
    Raise (AuthenticationError
             (VStr (lit "Can't find token from MSAL cache."))
             (lit "To re-authenticate, please run:" ++ NL ++ lit "az login"))
  /\ (exists login_message,
        check_result false (Some error_result) no_kwargs
        = Raise (AuthenticationError (get error_result (lit "error_description"))
                                     login_message))
  /\ check_result false (Some error_result) surrogate_kwargs
     = Raise UnicodeEncodeError
  /\ raises is_AuthenticationError
       (check_result false
          (Some (<[lit "access_token" := VStr (lit "t")]> ∅)) no_kwargs)
     = false.
Proof.
  assert (Herr : is_Some (error_result !! lit "error"))
    by (vm_compute; by eexists).
  split; [|split; [|split]].
  - destruct (check_result_raises false (Some ∅) no_kwargs) as (H & _).
    apply H. reflexivity.
  - destruct (check_result_raises false (Some error_result) no_kwargs)
      as (_ & H & _).
    destruct (H _ eq_refl Herr) as (_ & _ & _ & H' & _).
    apply H'. reflexivity.
  - destruct (check_result_raises false (Some error_result) surrogate_kwargs)
      as (_ & H & _).
    destruct (H _ eq_refl Herr) as (_ & _ & _ & _ & H').
    apply H'. vm_compute. reflexivity.
  - destruct (check_result_raises false
                (Some (<[lit "access_token" := VStr (lit "t")]> ∅))
                no_kwargs) as (_ & _ & H & _).
    apply (H _ eq_refl).
    + intros Heq. apply (f_equal (fun m => m !! lit "access_token")) in Heq.
      vm_compute in Heq. discriminate.
    + vm_compute. reflexivity.
Defined.

(** C2 as stated fails: a result with an [error] key does not always end
    in an [AuthenticationError].  With claims that are a lone surrogate
    the login message cannot be built, and the call raises
    [UnicodeEncodeError]: having an [error] key is not enough. *)
Lemma check_result_always_raises_counterexample :
  not_result (Some error_result) = false
  /\ is_Some (error_result !! lit "error")
  /\ check_result false (Some error_result) surrogate_kwargs
     = Raise UnicodeEncodeError
  /\ raises is_AuthenticationError
       (check_result false (Some error_result) surrogate_kwargs) = false
  /\ ~ (forall (in_cloud_console : bool) (result : option (gmap str value))
               (kw : kwargs),
          raises is_AuthenticationError
            (check_result in_cloud_console result kw) = true
          <-> not_result result = true
              \/ exists d, result = Some d /\ is_Some (d !! lit "error")).
Proof.
  assert (Herr : is_Some (error_result !! lit "error"))
    by (vm_compute; by eexists).
  assert (H : check_result false (Some error_result) surrogate_kwargs
              = Raise UnicodeEncodeError) by (vm_compute; reflexivity).
  split; [vm_compute; reflexivity|]. split; [exact Herr|].
  split; [exact H|]. split; [rewrite H; reflexivity|].
  intros Hall.
  pose proof (proj2 (Hall false (Some error_result) surrogate_kwargs)) as Hr.
  rewrite H in Hr. cbn [raises is_AuthenticationError] in Hr.
  assert (Hfalse : false = true).
  { apply Hr. right. exists error_result. split; [reflexivity|exact Herr]. }
  discriminate Hfalse.
Qed.

(** C3 as stated fails: with [preferred_username] present and empty, the
    code does not use its value but the value of [upn]; so the first key
    present does not always win. *)
Lemma check_result_first_present_counterexample :
  empty_preferred_result !! lit "error" = None
  /\ empty_preferred_result !! lit "id_token_claims"
     = Some (VDict empty_preferred_claims)
  /\ empty_preferred_claims !! lit "preferred_username" = Some (VStr [])
  /\ empty_preferred_claims !! lit "tid" = Some (VStr (lit "t1"))
  /\ check_result false (Some empty_preferred_result) no_kwargs
     = Return (identity (VStr (lit "u@x.com")) (VStr (lit "t1")))
  /\ check_result false (Some empty_preferred_result) no_kwargs
     <> Return (identity (VStr []) (VStr (lit "t1")))
  /\ ~ (forall (d idt : gmap str value) (p t : value),
          d !! lit "error" = None ->
          d !! lit "id_token_claims" = Some (VDict idt) ->
          idt !! lit "preferred_username" = Some p ->
          idt !! lit "tid" = Some t ->
          check_result false (Some d) no_kwargs = Return (identity p t)).
Proof.
  assert (H : check_result false (Some empty_preferred_result) no_kwargs
              = Return (identity (VStr (lit "u@x.com")) (VStr (lit "t1"))))
    by (vm_compute; reflexivity).
  assert (Hne : check_result false (Some empty_preferred_result) no_kwargs
                <> Return (identity (VStr []) (VStr (lit "t1"))))
    by (rewrite H; discriminate).
  split; [vm_compute; reflexivity|]. split; [vm_compute; reflexivity|].
  split; [vm_compute; reflexivity|]. split; [vm_compute; reflexivity|].
  split; [exact H|]. split; [exact Hne|].
  intros Hall. apply Hne.
  apply (Hall empty_preferred_result empty_preferred_claims);
    vm_compute; reflexivity.
Qed.

Lemma check_result_identity_witness :
  check_result true
    (Some (<[lit "id_token_claims" :=
               VDict (<[lit "upn" := VStr (lit "u@x.com")]>
                        (<[lit "tid" := VStr (lit "t1")]> ∅))]> ∅))
    no_kwargs
  = Return (identity (VStr (lit "u@x.com")) (VStr (lit "t1")))
  /\ check_result true
       (Some (<[lit "access_token" := VStr (lit "t")]> ∅)) no_kwargs
     = Return VNone.
Proof.
  split.
  - destruct (check_result_identity true
                (<[lit "id_token_claims" :=
                     VDict (<[lit "upn" := VStr (lit "u@x.com")]>
                              (<[lit "tid" := VStr (lit "t1")]> ∅))]> ∅)
                no_kwargs) as (H & _); [vm_compute; reflexivity|].
    destruct (H (<[lit "upn" := VStr (lit "u@x.com")]>
                   (<[lit "tid" := VStr (lit "t1")]> ∅)))
      as (_ & _ & H' & _); [vm_compute; reflexivity|].
    apply H'; vm_compute; reflexivity.
  - destruct (check_result_identity true
                (<[lit "access_token" := VStr (lit "t")]> ∅) no_kwargs)
      as (_ & H); [vm_compute; reflexivity|].
    apply H; [|vm_compute; reflexivity].
    intros Heq. apply (f_equal (fun m => m !! lit "access_token")) in Heq.
    vm_compute in Heq. discriminate.
Defined.

End ResultFacts.

(* ===================================================================== *)
(** * The claims challenge of a 401 response *)
(* ===================================================================== *)

Module ChallengeFacts.
Import Utf8 Base64 AuthUtil PyFacts Examples.

(** Repeating a one-character string. *)
Lemma repeat_str_char (c : N) (k : Z) :
  repeat_str [c] k = replicate (Z.to_nat k) c.
Proof.
  unfold repeat_str. induction (Z.to_nat k) as [|n IH]; simpl; [done|].
  by rewrite IH.
Qed.

(** The padding of a value: fewer than four [=], up to the next multiple
    of four. *)
Lemma padding_needed (v : str) :
  let pad := repeat_str (lit "=") ((- len v) mod 4) in
  Forall (fun c => c = 61%N) pad
  /\ (len (v ++ pad) mod 4 = 0)%Z
  /\ (len pad < 4)%Z
  /\ ((len v mod 4 = 0)%Z -> pad = []).
Proof.
  intros pad. unfold pad. change (lit "=") with [61%N].
  split; [apply repeat_str_Forall|].
  rewrite len_app. unfold len at 2 4. rewrite repeat_str_length.
  pose proof (len_nonneg v) as Hv.
  pose proof (Z.mod_pos_bound (- len v) 4 ltac:(lia)) as Hm.
  rewrite Z2Nat.id by lia.
  split; [|split; [lia|]].
  - rewrite Zplus_mod_idemp_r. by replace (len v + - len v)%Z with 0%Z by lia.
  - intros H0. rewrite repeat_str_char.
    replace ((- len v) mod 4)%Z with 0%Z; [done|].
    symmetry. by apply Z.mod_opp_l_z.
Qed.

Section Challenge.
Variable in_cloud_console : bool.
Variable _parse_challenges : option str -> res (list HttpChallenge).

Local Abbreviation _extract_claims := (_extract_claims _parse_challenges).
Local Abbreviation handle_response_401_track1 :=
  (handle_response_401_track1 in_cloud_console _parse_challenges).

(** The extractor on the parsed challenges. *)
Lemma _extract_claims_parsed
    (challenge : option str) (cs : list HttpChallenge) :
  _parse_challenges challenge = Return cs ->
  _extract_claims challenge =
    Return (match cs with
            | [c] =>
                match parameters c !! lit "claims" with
                | Some v =>
                    Some (v ++ repeat_str (lit "=") ((- len v) mod 4))
                | None => None
                end
            | _ => None
            end).
Proof.
  intros Hp. unfold AuthUtil._extract_claims. rewrite Hp. cbn [bind].
  destruct cs as [|c [|c' cs]].
  - reflexivity.
  - change (len [c] =? 1)%Z with true. cbn [negb].
    rewrite index_cons. cbn [bind]. unfold getitem.
    destruct (parameters c !! lit "claims") as [v|] eqn:Hv.
    + replace (contains (lit "claims") (parameters c)) with true; [done|].
      symmetry. apply contains_true. by rewrite Hv.
    + replace (contains (lit "claims") (parameters c)) with false; [done|].
      symmetry. by apply contains_false.
  - replace (len (c :: c' :: cs) =? 1)%Z with false; [done|].
    symmetry. apply Z.eqb_neq. unfold len. simpl length. lia.
Qed.

(** C7: the extractor gives [None] unless the header parses to exactly
    one challenge that has a [claims] parameter; then it gives the value of
    the parameter followed by fewer than four [=], as many as make the
    length a multiple of four, and none when it already is one. *)
Theorem _extract_claims_padding
    (challenge : option str) (cs : list HttpChallenge) :
  _parse_challenges challenge = Return cs ->
  (length cs <> 1%nat -> _extract_claims challenge = Return None)
  /\ (forall c, cs = [c] -> parameters c !! lit "claims" = None ->
      _extract_claims challenge = Return None)
  /\ (forall c v, cs = [c] -> parameters c !! lit "claims" = Some v ->
      exists pad,
        _extract_claims challenge = Return (Some (v ++ pad))
        /\ Forall (fun ch => ch = 61%N) pad
        /\ (len (v ++ pad) mod 4 = 0)%Z
        /\ (len pad < 4)%Z
        /\ ((len v mod 4 = 0)%Z -> pad = [])).
Proof.
  intros Hp. rewrite (_extract_claims_parsed challenge cs Hp).
  split; [|split].
  - intros Hlen. by destruct cs as [|c [|c' cs]].
  - intros c -> Hc. by rewrite Hc.
  - intros c v -> Hc. rewrite Hc.
    exists (repeat_str (lit "=") ((- len v) mod 4)). split; [done|].
    apply padding_needed.
Qed.

(** C10: when the extractor gives [None], [handle_response_401_track1]
    still returns its recommendation; the login command in it is the bare
    [az login], with no [--claims] and no [az logout] line, since absent
    claims and absent scopes take the last case of the command.  Inside
    Cloud Shell the message asks to refresh the portal and shows no command
    at all. *)
Theorem handle_response_401_track1_no_claims (response : Response) :
  _extract_claims (headers_get response (lit "WWW-Authenticate"))
  = Return None ->
  _generate_login_command None None = Return (lit "az login")
  /\ exists recommendation,
      handle_response_401_track1 response = Return recommendation
      /\ recommendation =
           lit "The access token has expired or been revoked by Continuous Access Evaluation. Silent re-authentication will be attempted in the future."
           ++ NL ++ lit "To re-authenticate, please "
           ++ (if in_cloud_console then lit "refresh Azure Portal."
               else lit "run:" ++ NL ++ lit "az login")
           ++ NL ++ NL
           ++ lit "If the problem persists, please contact your tenant administrator."
      /\ str_in (lit "--claims") recommendation = false
      /\ str_in (lit "az logout") recommendation = false
      /\ (in_cloud_console = false ->
          str_in (lit "run:" ++ NL ++ lit "az login" ++ NL) recommendation
          = true).
Proof.
  intros Hnone. split; [reflexivity|].
  unfold AuthUtil.handle_response_401_track1. cbv zeta.
  rewrite Hnone. cbn [bind].
  destruct in_cloud_console; eexists;
    (split; [vm_compute; reflexivity|]);
    (split; [vm_compute; reflexivity|]);
    (split; [vm_compute; reflexivity|]);
    (split; [vm_compute; reflexivity|]);
    intros; try discriminate; vm_compute; reflexivity.
Qed.

End Challenge.

Lemma _extract_claims_padding_witness :
  _extract_claims parse_nothing None = Return None
  /\ _extract_claims parse_one_plain (Some (lit "Bearer error=invalid_token"))
     = Return None
  /\ exists pad,
      _extract_claims parse_one_claims (Some (lit "Bearer claims=abcde"))
      = Return (Some (lit "abcde" ++ pad))
      /\ Forall (fun ch => ch = 61%N) pad
      /\ (len (lit "abcde" ++ pad) mod 4 = 0)%Z
      /\ (len pad < 4)%Z
      /\ ((len (lit "abcde") mod 4 = 0)%Z -> pad = []).
Proof.
  split; [|split].
  - destruct (_extract_claims_padding parse_nothing None [] eq_refl)
      as (H & _).
    apply H. discriminate.
  - destruct (_extract_claims_padding parse_one_plain
                (Some (lit "Bearer error=invalid_token")) _ eq_refl)
      as (_ & H & _).
    apply (H _ eq_refl). vm_compute. reflexivity.
  - destruct (_extract_claims_padding parse_one_claims
                (Some (lit "Bearer claims=abcde")) _ eq_refl)
      as (_ & _ & H).
    apply (H _ (lit "abcde") eq_refl). vm_compute. reflexivity.
Defined.

Lemma handle_response_401_track1_no_claims_witness :
  exists recommendation,
    handle_response_401_track1 false parse_nothing bare_response
    = Return recommendation
    /\ str_in (lit "--claims") recommendation = false
    /\ str_in (lit "az logout") recommendation = false
    /\ str_in (lit "run:" ++ NL ++ lit "az login" ++ NL) recommendation = true.
Proof.
  destruct (handle_response_401_track1_no_claims false parse_nothing
              bare_response eq_refl)
    as (_ & r & Hr & _ & H1 & H2 & H3).
  exists r. split; [exact Hr|]. split; [exact H1|]. split; [exact H2|].
  apply H3. reflexivity.
Defined.

End ChallengeFacts.

(* ===================================================================== *)
(** * Decoding an access token *)
(* ===================================================================== *)

Module TokenFacts.
Import Utf8 Base64 AuthUtil PyFacts Examples.

(** A string has a single part exactly when the separator is not in it. *)
Lemma split_single (sep : N) (s : str) :
  (length (split sep s) < 2)%nat <-> ~ In sep s.
Proof.
  rewrite split_length_count. split.
  - intros Hlen Hin.
    assert (Hf : sep ∈ filter (fun c => c = sep) s).
    { apply list_elem_of_filter. split; [done|]. by apply list_elem_of_In. }
    destruct (filter (fun c => c = sep) s); [inversion Hf|simpl in Hlen; lia].
  - intros Hnot.
    destruct (filter (fun c => c = sep) s) as [|c l] eqn:Hf; [simpl; lia|].
    exfalso. apply Hnot.
    assert (Hc : c ∈ filter (fun c => c = sep) s) by (rewrite Hf; left).
    apply list_elem_of_filter in Hc as [-> Hc]. by apply list_elem_of_In.
Qed.

(** [decode_part] raises nothing but a [ValueError]. *)
Lemma decode_part_raises (part : str) (e : exn) :
  decode_part part = Raise e -> is_ValueError e = true.
Proof.
  unfold decode_part. cbv zeta.
  destruct (urlsafe_b64decode _) as [raw|]; cbn [or_raise bind].
  - destruct (Utf8.decode raw); cbn [or_raise]; [done|]. by intros [= <-].
  - by intros [= <-].
Qed.

Section Token.
Variable json_loads : str -> option value.

Local Abbreviation decode_access_token := (decode_access_token json_loads).

(** The token with its second part at hand. *)
Lemma decode_access_token_part (access_token part : str) :
  split 46 access_token !! 1%nat = Some part ->
  decode_access_token access_token =
    (do decoded_str <- decode_part part;
     or_raise JSONDecodeError (json_loads decoded_str)).
Proof.
  intros Hp. unfold AuthUtil.decode_access_token, index. by rewrite Hp.
Qed.

(** C8: [decode_access_token] takes the second of the parts that the dots
    separate, decodes it as base64url and UTF-8 and parses the text as
    JSON.  A token without a dot raises [IndexError]; a second part whose
    text is not JSON raises [json.JSONDecodeError]; no failure is an
    [AuthenticationError]: each is a lookup error or a value error. *)
Theorem decode_access_token_failures (access_token : str) :
  ((length (split 46 access_token) < 2)%nat ->
   decode_access_token access_token = Raise IndexError)
  /\ (~ In 46%N access_token ->
      decode_access_token access_token = Raise IndexError)
  /\ (forall part, split 46 access_token !! 1%nat = Some part ->
      decode_access_token access_token =
        (do raw <- or_raise ValueError
                     (urlsafe_b64decode
                        (part ++ repeat_str (lit "=") ((- len part) mod 4)));
         do decoded_str <- or_raise UnicodeDecodeError (Utf8.decode raw);
         or_raise JSONDecodeError (json_loads decoded_str)))
  /\ (forall part decoded_str,
        split 46 access_token !! 1%nat = Some part ->
        decode_part part = Return decoded_str ->
        (json_loads decoded_str = None ->
         decode_access_token access_token = Raise JSONDecodeError)
        /\ (forall v, json_loads decoded_str = Some v ->
            decode_access_token access_token = Return v))
  /\ raises is_AuthenticationError (decode_access_token access_token) = false
  /\ (returns (decode_access_token access_token) = false ->
      raises (fun e => is_LookupError e || is_ValueError e)
        (decode_access_token access_token) = true).
Proof.
  assert (Hshort : (length (split 46 access_token) < 2)%nat ->
                   decode_access_token access_token = Raise IndexError).
  { intros Hlen. unfold AuthUtil.decode_access_token, index.
    rewrite lookup_ge_None_2 by lia. done. }
  assert (Hkind : raises is_AuthenticationError
                    (decode_access_token access_token) = false
                  /\ (returns (decode_access_token access_token) = false ->
                      raises (fun e => is_LookupError e || is_ValueError e)
                        (decode_access_token access_token) = true)).
  { destruct (split 46 access_token !! 1%nat) as [part|] eqn:Hp.
    - rewrite (decode_access_token_part _ part Hp).
      destruct (decode_part part) as [s|e] eqn:Hd; cbn [bind].
      + by destruct (json_loads s).
      + apply decode_part_raises in Hd. cbn [raises returns].
        rewrite Hd, orb_true_r. split; [|done]. by destruct e.
    - rewrite Hshort; [done|]. apply lookup_ge_None_1 in Hp. lia. }
  split; [done|]. split; [intros H; by apply Hshort, split_single|].
  split; [|split; [|done]].
  - intros part Hp. rewrite (decode_access_token_part _ part Hp).
    unfold decode_part. cbv zeta.
    destruct (urlsafe_b64decode _); [|done]. by cbn [or_raise bind].
  - intros part s Hp Hd. rewrite (decode_access_token_part _ part Hp), Hd.
    cbn [bind]. split; [by intros ->|]. by intros v ->.
Qed.

End Token.

Lemma decode_access_token_failures_witness :
  decode_access_token loads_empty_object (lit "e30") = Raise IndexError
  /\ decode_access_token loads_empty_object (lit "e30.YWJj.sig")
     = Raise JSONDecodeError
  /\ decode_access_token loads_empty_object (lit "e30.e30.sig")
     = Return (VDict ∅).
Proof.
  split; [|split].
  - destruct (decode_access_token_failures loads_empty_object (lit "e30"))
      as (H & _).
    apply H. vm_compute. lia.
  - destruct (decode_access_token_failures loads_empty_object
                (lit "e30.YWJj.sig")) as (_ & _ & _ & H & _).
    destruct (H (lit "YWJj") (lit "abc")) as (H' & _);
      [vm_compute; reflexivity | vm_compute; reflexivity |].
    apply H'. vm_compute. reflexivity.
  - destruct (decode_access_token_failures loads_empty_object
                (lit "e30.e30.sig")) as (_ & _ & _ & H & _).
    destruct (H (lit "e30") (lit "{}")) as (_ & H');
      [vm_compute; reflexivity | vm_compute; reflexivity |].
    apply H'. vm_compute. reflexivity.
Defined.

End TokenFacts.

(* ===================================================================== *)
(** * The examples of the specification *)
(* ===================================================================== *)

Module SpecExamples.
Import Utf8 Base64 AuthUtil Examples.

Example scopes_to_resource_managedhsm :
  scopes_to_resource [lit "https://managedhsm.azure.com/.default"]
  = Return (lit "https://managedhsm.azure.com").
Proof. vm_compute. reflexivity. Qed.

Example scopes_to_resource_user_impersonation :
  scopes_to_resource
    [lit "https://management.core.windows.net//user_impersonation"]
  = Return (lit "https://management.core.windows.net/").
Proof. vm_compute. reflexivity. Qed.

Example scopes_to_resource_empty : scopes_to_resource [] = Raise IndexError.
Proof. reflexivity. Qed.

Example resource_to_scopes_trailing_slash :
  resource_to_scopes (lit "https://management.core.windows.net/")
  = [lit "https://management.core.windows.net//.default"].
Proof. vm_compute. reflexivity. Qed.

Example login_command_claims :
  _generate_login_command None (Some (lit "abc"))
  = Return (lit "az logout" ++ NL ++ lit "az login --claims YWJj").
Proof. vm_compute. reflexivity. Qed.

Example login_command_scopes :
  _generate_login_command (Some [lit "s1"; lit "s2"]) None
  = Return (lit "az login --scope s1 s2").
Proof. vm_compute. reflexivity. Qed.

Example login_command_bare :
  _generate_login_command None None = Return (lit "az login").
Proof. vm_compute. reflexivity. Qed.

Example check_result_error_description :
  check_result false
    (Some (<[lit "error" := VStr (lit "x")]>
             (<[lit "error_description" := VStr (lit "bad")]> ∅)))
    no_kwargs
  = Raise (AuthenticationError (VStr (lit "bad"))
             (lit "To re-authenticate, please run:" ++ NL ++ lit "az login"
              ++ NL ++ NL
              ++ lit "If the problem persists, please contact your tenant administrator.")).
Proof. vm_compute. reflexivity. Qed.

(** A string with a lone surrogate is not base64url and cannot be encoded
    as UTF-8: the encoder raises. *)
Example encode_claims_surrogate :
  encode_claims [0xD800%N] = Raise UnicodeEncodeError.
Proof. vm_compute. reflexivity. Qed.

(** A string that happens to decode as base64url is taken for encoded. *)
Example encode_claims_braces : encode_claims (lit "{}") = Return (lit "{}").
Proof. vm_compute. reflexivity. Qed.

(** Decoded bytes that are not UTF-8 leave the claims as they are. *)
Example decode_claims_not_utf8 :
  decode_claims (lit "abcd") = Return (lit "abcd").
Proof. vm_compute. reflexivity. Qed.

Example extract_claims_padded :
  _extract_claims parse_one_claims (Some (lit "Bearer claims=abcde"))
  = Return (Some (lit "abcde===")).
Proof. vm_compute. reflexivity. Qed.

End SpecExamples.

(* ===================================================================== *)
(** * Further properties of resources and scopes *)
(* ===================================================================== *)

Module ScopeExtra.
Import AuthUtil PyFacts Vocabulary.

(** Cutting a suffix off with a negative bound leaves a prefix whose
    length is shorter by the length of the suffix. *)
Lemma slice_to_endswith (s suffix : str) :
  suffix <> [] -> endswith s suffix = true ->
  slice_to s (- len suffix) ++ suffix = s.
Proof.
  intros Hne [r ->]%endswith_suffix. by rewrite slice_to_app_neg.
Qed.

(** What [scopes_to_resource] returns is what is left of the first scope
    once one of the two suffixes, or nothing, is cut off its end. *)
Lemma scopes_to_resource_cut (scope : str) (rest : list str) :
  exists r cut,
    scopes_to_resource (scope :: rest) = Return r
    /\ scope = r ++ cut
    /\ (cut = lit "/.default"
        \/ (cut = lit "/user_impersonation"
            /\ endswith scope (lit "/.default") = false)
        \/ (cut = []
            /\ endswith scope (lit "/.default") = false
            /\ endswith scope (lit "/user_impersonation") = false)).
Proof.
  rewrite ScopeFacts.scopes_to_resource_cons.
  destruct (endswith scope (lit "/.default")) eqn:H1.
  - eexists _, (lit "/.default"). split; [done|]. split; [|by left].
    symmetry. by apply slice_to_endswith.
  - destruct (endswith scope (lit "/user_impersonation")) eqn:H2.
    + eexists _, (lit "/user_impersonation"). split; [done|].
      split; [|right; by left]. symmetry. by apply slice_to_endswith.
    + exists scope, []. split; [done|]. split; [by rewrite app_nil_r|].
      right. by right.
Qed.

(** X1: going from scopes to a resource and back gives the first scope
    again exactly when that scope ends with [/.default]; a scope with
    [/user_impersonation] or with no known suffix comes back changed. *)
Theorem resource_to_scopes_scopes_to_resource
    (scope : str) (rest : list str) :
  (do r <- scopes_to_resource (scope :: rest); Return (resource_to_scopes r))
  = Return [scope]
  <-> endswith scope (lit "/.default") = true.
Proof.
  destruct (scopes_to_resource_cut scope rest) as (r & cut & -> & Hs & Hcut).
  cbn [bind]. unfold resource_to_scopes. split.
  - intros [= Heq]. rewrite <- Heq. apply endswith_app.
  - intros Hend. destruct Hcut as [-> | [[_ Hno] | [_ [Hno _]]]];
      [by rewrite Hs | congruence | congruence].
Qed.

(** X2: [scopes_to_resource] raises [IndexError] exactly on the empty
    list; otherwise it returns a prefix of the first scope that is shorter
    by 0, 9 or 19 characters: it never adds or changes a character. *)
Theorem scopes_to_resource_prefix (scopes : list str) :
  (scopes_to_resource scopes = Raise IndexError <-> scopes = [])
  /\ (returns (scopes_to_resource scopes) = false -> scopes = [])
  /\ (forall r, scopes_to_resource scopes = Return r ->
      exists scope rest,
        scopes = scope :: rest
        /\ r `prefix_of` scope
        /\ (length scope = length r
            \/ length scope = (length r + 9)%nat
            \/ length scope = (length r + 19)%nat)).
Proof.
  destruct scopes as [|scope rest].
  - split; [done|]. split; [done|]. intros r [=].
  - destruct (scopes_to_resource_cut scope rest) as (r & cut & Hr & Hs & Hcut).
    rewrite Hr. split; [done|]. split; [done|].
    intros r' [= <-]. exists scope, rest. split; [done|].
    split; [by exists cut|]. rewrite Hs, length_app.
    destruct Hcut as [-> | [[-> _] | [-> _]]]; simpl; lia.
Qed.

Lemma scopes_to_resource_prefix_witness :
  exists scope rest,
    [lit "https://vault.azure.net/.default"; lit "x"] = scope :: rest
    /\ lit "https://vault.azure.net" `prefix_of` scope
    /\ (length scope = length (lit "https://vault.azure.net")
        \/ length scope = (length (lit "https://vault.azure.net") + 9)%nat
        \/ length scope = (length (lit "https://vault.azure.net") + 19)%nat).
Proof.
  destruct (scopes_to_resource_prefix
              [lit "https://vault.azure.net/.default"; lit "x"])
    as (_ & _ & H).
  apply H. vm_compute. reflexivity.
Defined.

(** X3: [resource_to_scopes] gives one scope, which ends with [/.default]
    and has the resource as what comes before; two resources give the same
    scopes only when they are the same resource. *)
Theorem resource_to_scopes_injective (r1 r2 : str) :
  (resource_to_scopes r1 = resource_to_scopes r2 <-> r1 = r2)
  /\ length (resource_to_scopes r1) = 1%nat
  /\ Forall (fun scope => endswith scope (lit "/.default") = true
                          /\ length scope = (length r1 + 9)%nat)
       (resource_to_scopes r1).
Proof.
  unfold resource_to_scopes. split; [|split].
  - split; [|by intros ->]. intros [= H]. by apply app_inv_tail in H.
  - done.
  - apply Forall_cons. split; [|by apply Forall_nil].
    split; [apply endswith_app|]. by rewrite length_app.
Qed.

End ScopeExtra.

(* ===================================================================== *)
(** * Further properties of the claims codec *)
(* ===================================================================== *)

Module ClaimsExtra.
Import Utf8 Base64 AuthUtil PyFacts Vocabulary.
Local Open Scope N_scope.

(** Only an ASCII string is accepted by the base64url decoder. *)
Lemma urlsafe_b64decode_is_ascii (x : str) :
  is_Some (urlsafe_b64decode x) -> is_ascii x = true.
Proof.
  unfold urlsafe_b64decode, bytes_from_decode_data, is_ascii.
  destruct (forallb _ x); [done|]. by intros [? [=]].
Qed.

Lemma is_ascii_Forall (x : str) :
  is_ascii x = true <-> Forall (fun c => c < 128) x.
Proof.
  unfold is_ascii. rewrite forallb_forall, Forall_forall.
  split; intros H c Hc.
  - apply N.ltb_lt, H. by apply list_elem_of_In.
  - apply N.ltb_lt, H. by apply list_elem_of_In.
Qed.

(** ASCII characters are bytes. *)
Lemma ascii_bytes (x : str) :
  is_ascii x = true -> Forall (fun b => b < 256) x.
Proof.
  intros H%is_ascii_Forall. eapply Forall_impl; [exact H|].
  intros c Hc. simpl in Hc. lia.
Qed.

(** An ASCII string is its own UTF-8 encoding. *)
Lemma encode_ascii (x : str) : is_ascii x = true -> Utf8.encode x = Some x.
Proof.
  unfold is_ascii. induction x as [|c x IH]; simpl; [done|].
  intros [Hc Hx]%andb_true_iff. rewrite (IH Hx).
  unfold encode_char. by rewrite Hc.
Qed.

(** X4: whatever [encode_claims] returns is pure ASCII, also when the
    input is not. *)
Theorem encode_claims_ascii (x y : str) :
  encode_claims x = Return y -> is_ascii y = true.
Proof.
  destruct (urlsafe_b64decode x) as [raw|] eqn:H.
  - rewrite ClaimsFacts.encode_claims_base64 by by rewrite H.
    intros [= <-]. apply urlsafe_b64decode_is_ascii. by rewrite H.
  - rewrite ClaimsFacts.encode_claims_plain by done.
    destruct (Utf8.encode x) as [raw|] eqn:Hraw; [|done].
    intros [= <-]. apply is_ascii_Forall.
    apply Base64Facts.urlsafe_b64encode_ascii.
    by apply Utf8Facts.encode_byte with x.
Qed.

Lemma encode_claims_ascii_witness :
  is_ascii (urlsafe_b64encode [195; 169]) = true.
Proof.
  apply (encode_claims_ascii [233] (urlsafe_b64encode [195; 169])).
  vm_compute. reflexivity.
Defined.

(** When [encode_claims] does not return. *)
Lemma encode_claims_returns_false (x : str) :
  returns (encode_claims x) = false
  <-> urlsafe_b64decode x = None /\ well_formed x = false.
Proof.
  destruct (urlsafe_b64decode x) as [raw|] eqn:H.
  - rewrite ClaimsFacts.encode_claims_base64 by by rewrite H.
    split; [done|]. by intros [? _].
  - rewrite ClaimsFacts.encode_claims_plain by done.
    pose proof (Utf8Facts.encode_is_Some x) as Hwf.
    destruct (Utf8.encode x) as [raw|] eqn:Hraw.
    + split; [done|]. intros [_ Hf].
      rewrite (proj1 Hwf) in Hf by by eexists. done.
    + split; [|done]. intros _.
      split; [done|]. destruct (well_formed x); [|done].
      by destruct (proj2 Hwf eq_refl).
Qed.

(** What [encode_claims] raises. *)
Lemma encode_claims_raise_kind (x : str) (e : exn) :
  encode_claims x = Raise e -> e = UnicodeEncodeError.
Proof.
  destruct (urlsafe_b64decode x) as [raw|] eqn:H.
  - by rewrite ClaimsFacts.encode_claims_base64 by by rewrite H.
  - rewrite ClaimsFacts.encode_claims_plain by done.
    destruct (Utf8.encode x); [done|]. by intros [= <-].
Qed.

(** X5: [encode_claims] raises exactly on a string that is neither
    accepted by the base64url decoder nor by [str.encode()], and what it
    raises then is [UnicodeEncodeError]; the [ValueError] of the decoder
    never leaves the function. *)
Theorem encode_claims_raises (x : str) :
  (returns (encode_claims x) = false
   <-> urlsafe_b64decode x = None /\ well_formed x = false)
  /\ (forall e, encode_claims x = Raise e -> e = UnicodeEncodeError).
Proof.
  split; [apply encode_claims_returns_false|].
  intros e. apply encode_claims_raise_kind.
Qed.

Lemma encode_claims_raises_witness :
  returns (encode_claims [0xDC00]) = false
  /\ UnicodeEncodeError = UnicodeEncodeError.
Proof.
  destruct (encode_claims_raises [0xDC00]) as (H1 & H2).
  split.
  - apply H1. split; vm_compute; reflexivity.
  - apply (H2 UnicodeEncodeError). vm_compute. reflexivity.
Defined.

(** A string with a character outside ASCII is rejected by the decoder. *)
Lemma urlsafe_b64decode_non_ascii (y : str) :
  is_ascii y = false -> urlsafe_b64decode y = None.
Proof.
  intros H. destruct (urlsafe_b64decode y) as [raw|] eqn:Hd; [|done].
  rewrite urlsafe_b64decode_is_ascii in H by by rewrite Hd. done.
Qed.

(** X6: [decode_claims] never raises.  It returns the UTF-8 text of the
    decoded bytes when the string is base64url and the bytes are UTF-8, and
    the string itself in every other case, among them every string with a
    character outside ASCII. *)
Theorem decode_claims_never_raises (y : str) :
  returns (decode_claims y) = true
  /\ (urlsafe_b64decode y = None -> decode_claims y = Return y)
  /\ (forall raw, urlsafe_b64decode y = Some raw ->
      decode_claims y = Return (default y (Utf8.decode raw)))
  /\ (is_ascii y = false -> decode_claims y = Return y).
Proof.
  rewrite ClaimsFacts.decode_claims_total.
  split; [done|]. split; [by intros ->|]. split; [by intros raw ->|].
  intros H. by rewrite urlsafe_b64decode_non_ascii.
Qed.

Lemma decode_claims_never_raises_witness :
  decode_claims (lit "abc") = Return (lit "abc")
  /\ decode_claims (lit "YWJj")
     = Return (default (lit "YWJj") (Utf8.decode (lit "abc")))
  /\ decode_claims [0xE9] = Return [0xE9].
Proof.
  split; [|split].
  - destruct (decode_claims_never_raises (lit "abc")) as (_ & H & _).
    apply H. vm_compute. reflexivity.
  - destruct (decode_claims_never_raises (lit "YWJj")) as (_ & _ & H & _).
    apply H. vm_compute. reflexivity.
  - destruct (decode_claims_never_raises [0xE9]) as (_ & _ & _ & H).
    apply H. vm_compute. reflexivity.
Defined.

End ClaimsExtra.

(* ===================================================================== *)
(** * When [encode_claims] takes a string for base64url *)
(* ===================================================================== *)

Module HeuristicExtra.
Import Utf8 Base64 AuthUtil PyFacts Vocabulary.
Local Open Scope N_scope.

Ltac Zify.zify_post_hook ::= Z.to_euclidean_division_equations.

(** The translation of the decoder makes no padding character. *)
Lemma translation_not_pad (c : N) :
  (c =? BASE64_PAD) = false ->
  (urlsafe_decode_translation c =? BASE64_PAD) = false.
Proof.
  unfold urlsafe_decode_translation, BASE64_PAD. intros Hc.
  destruct (N.eqb_spec c 45); [done|]. by destruct (N.eqb_spec c 95).
Qed.

Lemma data_chars_cons (c : N) (s : str) :
  data_chars (c :: s)
  = (if is_data_char c then S (data_chars s) else data_chars s).
Proof. unfold data_chars. simpl. by destruct (is_data_char c). Qed.

(** Without padding in the input, the decoder only counts the data
    characters: it succeeds exactly when they fill whole groups of four. *)
Lemma loop_no_pad (data : bytes) (quad_pos leftchar pads : N) :
  quad_pos < 4 -> no_pad data = true ->
  is_Some (a2b_base64_loop (map urlsafe_decode_translation data)
             quad_pos leftchar pads)
  <-> ((N.to_nat quad_pos + data_chars data) mod 4 = 0)%nat.
Proof.
  revert quad_pos leftchar pads.
  induction data as [|c data IH]; intros q l p Hq Hnp.
  - cbn [map a2b_base64_loop]. unfold data_chars. simpl length.
    destruct (N.eqb_spec q 0) as [->|Hne].
    + split; [done | by eexists].
    + split; [by intros [? [=]] | intros H; exfalso; lia].
  - unfold no_pad in Hnp. simpl in Hnp.
    apply andb_true_iff in Hnp as [Hc Hnp]. apply negb_true_iff in Hc.
    cbn [map a2b_base64_loop]. rewrite (translation_not_pad c Hc).
    rewrite data_chars_cons. unfold is_data_char.
    destruct (table_a2b_base64 (urlsafe_decode_translation c)) as [v|].
    + assert (Hcase : q = 0 \/ q = 1 \/ q = 2 \/ q = 3) by lia.
      destruct Hcase as [-> | [-> | [-> | ->]]]; simpl N.eqb; cbv iota;
        rewrite ?fmap_is_Some, IH by (done || lia); lia.
    + by apply IH.
Qed.

(** The decoder on a string without padding. *)
Lemma urlsafe_b64decode_no_pad (x : str) :
  no_pad x = true ->
  is_Some (urlsafe_b64decode x)
  <-> is_ascii x = true /\ (data_chars x mod 4 = 0)%nat.
Proof.
  intros Hnp. unfold urlsafe_b64decode, bytes_from_decode_data.
  fold (is_ascii x). destruct (is_ascii x); simpl.
  - unfold a2b_base64. rewrite loop_no_pad by done. simpl. tauto.
  - split; [by intros [? [=]] | by intros [[=] _]].
Qed.

(** X7: on an ASCII string without [=], [encode_claims] counts the
    letters, digits and [+ / - _]: when their number is a multiple of four
    (none is enough) the string is taken for base64url and returned as it
    is; otherwise the string is returned in base64url. *)
Theorem encode_claims_heuristic (x : str) :
  is_ascii x = true -> no_pad x = true ->
  ((data_chars x mod 4 = 0)%nat -> encode_claims x = Return x)
  /\ ((data_chars x mod 4 <> 0)%nat ->
      encode_claims x = Return (urlsafe_b64encode x)).
Proof.
  intros Ha Hnp. pose proof (urlsafe_b64decode_no_pad x Hnp) as Hd. split.
  - intros Hm. apply ClaimsFacts.encode_claims_base64. by apply Hd.
  - intros Hm. rewrite ClaimsFacts.encode_claims_plain.
    + by rewrite ClaimsExtra.encode_ascii.
    + destruct (urlsafe_b64decode x) as [raw|]; [|done].
      destruct Hm. apply Hd. by eexists.
Qed.

Lemma encode_claims_heuristic_witness :
  encode_claims (lit "{}") = Return (lit "{}")
  /\ encode_claims (lit "{a:1}") = Return (urlsafe_b64encode (lit "{a:1}")).
Proof.
  split.
  - destruct (encode_claims_heuristic (lit "{}")) as (H & _);
      [vm_compute; reflexivity | vm_compute; reflexivity |].
    apply H. vm_compute. reflexivity.
  - destruct (encode_claims_heuristic (lit "{a:1}")) as (_ & H);
      [vm_compute; reflexivity | vm_compute; reflexivity |].
    apply H. vm_compute. discriminate.
Defined.

End HeuristicExtra.

(* ===================================================================== *)
(** * Further properties of the login message and the classifier *)
(* ===================================================================== *)

Module LoginExtra.
Import Utf8 Base64 AuthUtil PyFacts Vocabulary Examples.

(** The command returns exactly when the claims, if given, can be
    encoded. *)
Lemma _generate_login_command_returns
    (scopes : option (list str)) (claims : option str) :
  returns (_generate_login_command scopes claims)
  = (if given claims then returns (encode_claims (default [] claims))
     else true).
Proof.
  unfold _generate_login_command. destruct (given claims); [|done].
  by destruct (encode_claims (default [] claims)).
Qed.

(** How the login command fails. *)
Lemma _generate_login_command_raise_kind
    (scopes : option (list str)) (claims : option str) (e : exn) :
  _generate_login_command scopes claims = Raise e ->
  e = UnicodeEncodeError
  /\ exists c, claims = Some c /\ c <> []
               /\ urlsafe_b64decode c = None
               /\ well_formed c = false.
Proof.
  intros He. destruct claims as [[|c0 c]|];
    [by rewrite LoginFacts._generate_login_command_no_claims in He
        by by right| |
     by rewrite LoginFacts._generate_login_command_no_claims in He
        by by left].
  rewrite LoginFacts._generate_login_command_claims in He by done.
  destruct (encode_claims (c0 :: c)) as [y|e'] eqn:Hy; [done|].
  injection He as ->.
  split; [by apply ClaimsExtra.encode_claims_raise_kind with (c0 :: c)|].
  exists (c0 :: c). split; [done|]. split; [done|].
  apply ClaimsExtra.encode_claims_returns_false. by rewrite Hy.
Qed.

(** X8: the login command cannot fail without claims, whatever the
    scopes are; with claims its only failure is the [UnicodeEncodeError]
    of [encode_claims], on non-empty claims that are neither base64url
    nor accepted by [str.encode()]. *)
Theorem _generate_login_command_errors
    (scopes : option (list str)) (claims : option str) :
  (no_claims claims ->
   returns (_generate_login_command scopes claims) = true)
  /\ (forall e, _generate_login_command scopes claims = Raise e ->
      e = UnicodeEncodeError
      /\ exists c, claims = Some c /\ c <> []
                   /\ urlsafe_b64decode c = None
                   /\ well_formed c = false).
Proof.
  split.
  - intros Hc. rewrite _generate_login_command_returns.
    by rewrite (LoginFacts.given_false claims Hc).
  - intros e. apply _generate_login_command_raise_kind.
Qed.

Lemma _generate_login_command_errors_witness :
  returns (_generate_login_command (Some [lit "s1"]) (Some [])) = true
  /\ exists c, Some [0xDC00%N] = Some c /\ c <> []
               /\ urlsafe_b64decode c = None /\ well_formed c = false.
Proof.
  split.
  - destruct (_generate_login_command_errors (Some [lit "s1"]) (Some []))
      as (H & _).
    apply H. by right.
  - destruct (_generate_login_command_errors None (Some [0xDC00%N]))
      as (_ & H).
    destruct (H UnicodeEncodeError) as (_ & H'); [|exact H'].
    vm_compute. reflexivity.
Defined.

Section Message.
Variable in_cloud_console : bool.

(** The login message around the login command. *)
Lemma _generate_login_message_command (kw : kwargs) :
  _generate_login_message in_cloud_console kw =
    (do login_command <- _generate_login_command (scopes kw) (claims kw);
     Return (login_message_with
               (if in_cloud_console then lit "refresh Azure Portal."
                else lit "run:" ++ NL ++ login_command))).
Proof.
  unfold _generate_login_message, login_message_with, contact_admin_msg.
  destruct (_generate_login_command (scopes kw) (claims kw)); [|done].
  cbn [bind]. by rewrite <- !app_assoc.
Qed.

End Message.

(** X9: inside Cloud Shell the login message is one fixed text, whatever
    the scopes and claims are; but the login command is built first in
    both environments, so the message fails exactly when the command
    does, also inside Cloud Shell where the command is not shown. *)
Theorem _generate_login_message_cloud_console (kw : kwargs) :
  (forall m, _generate_login_message true kw = Return m ->
     m = login_message_with (lit "refresh Azure Portal."))
  /\ (forall in_cloud_console e,
        _generate_login_message in_cloud_console kw = Raise e
        <-> _generate_login_command (scopes kw) (claims kw) = Raise e)
  /\ (forall cmd, _generate_login_command (scopes kw) (claims kw) = Return cmd ->
      _generate_login_message false kw
      = Return (login_message_with (lit "run:" ++ NL ++ cmd))).
Proof.
  split; [|split].
  - intros m. rewrite _generate_login_message_command.
    destruct (_generate_login_command (scopes kw) (claims kw)); [|done].
    by intros [= <-].
  - intros icc e. rewrite _generate_login_message_command.
    by destruct (_generate_login_command (scopes kw) (claims kw)).
  - intros cmd Hcmd. by rewrite _generate_login_message_command, Hcmd.
Qed.

Lemma _generate_login_message_cloud_console_witness :
  lit "To re-authenticate, please refresh Azure Portal." ++ NL ++ NL
    ++ lit "If the problem persists, please contact your tenant administrator."
  = login_message_with (lit "refresh Azure Portal.")
  /\ _generate_login_message false
       {| scopes := Some [lit "s1"]; claims := None |}
     = Return (login_message_with
                 (lit "run:" ++ NL ++ lit "az login --scope s1")).
Proof.
  split.
  - destruct (_generate_login_message_cloud_console
                {| scopes := Some [lit "s1"]; claims := Some (lit "abc") |})
      as (H & _).
    apply H. vm_compute. reflexivity.
  - destruct (_generate_login_message_cloud_console
                {| scopes := Some [lit "s1"]; claims := None |})
      as (_ & _ & H).
    apply H. vm_compute. reflexivity.
Defined.

End LoginExtra.

Module ResultExtra.
Import Utf8 Base64 AuthUtil PyFacts Vocabulary Examples.

(** X10: without an [error] key the keyword arguments and the environment
    play no part: [check_result] gives the same outcome for every scopes,
    claims and Cloud Shell setting, the failure on an empty or absent
    result included. *)
Theorem check_result_ignores_kwargs
    (result : option (gmap str value)) (kw1 kw2 : kwargs)
    (console1 console2 : bool) :
  (forall d, result = Some d -> d !! lit "error" = None) ->
  check_result console1 result kw1 = check_result console2 result kw2.
Proof.
  intros Hno. destruct (not_result result) eqn:Hnr.
  - unfold check_result. by rewrite Hnr.
  - destruct result as [d|]; [|done].
    apply ResultFacts.not_result_Some in Hnr.
    by rewrite !ResultFacts.check_result_no_error by auto.
Qed.

Lemma check_result_ignores_kwargs_witness :
  check_result true
    (Some (<[lit "id_token_claims" :=
               VDict (<[lit "upn" := VStr (lit "u")]> ∅)]> ∅))
    {| scopes := Some [lit "s"]; claims := Some [0xDC00%N] |}
  = check_result false
      (Some (<[lit "id_token_claims" :=
                 VDict (<[lit "upn" := VStr (lit "u")]> ∅)]> ∅))
      no_kwargs.
Proof.
  apply check_result_ignores_kwargs.
  intros d [= <-]. vm_compute. reflexivity.
Defined.

(** X11: of a result with an [error] key only [error_description] is
    read: two such results with the same description, or both without
    one, give the same outcome, whatever their error codes and other keys
    are, identity claims included; without a description the message of
    the [AuthenticationError] is [None]. *)
Theorem check_result_error_description_only
    (in_cloud_console : bool) (d1 d2 : gmap str value) (kw : kwargs) :
  is_Some (d1 !! lit "error") -> is_Some (d2 !! lit "error") ->
  (d1 !! lit "error_description" = d2 !! lit "error_description" ->
   check_result in_cloud_console (Some d1) kw
   = check_result in_cloud_console (Some d2) kw)
  /\ (d1 !! lit "error_description" = None ->
      forall login_message,
        _generate_login_message in_cloud_console kw = Return login_message ->
        check_result in_cloud_console (Some d1) kw
        = Raise (AuthenticationError VNone login_message)).
Proof.
  intros H1 H2. rewrite !ResultFacts.check_result_error by done.
  unfold aad_error_handler, get. split.
  - by intros ->.
  - intros -> m ->. done.
Qed.

Lemma check_result_error_description_only_witness :
  check_result false
    (Some (<[lit "error" := VStr (lit "invalid_grant")]>
             (<[lit "id_token_claims" := VDict ∅]> ∅)))
    no_kwargs
  = check_result false
      (Some (<[lit "error" := VStr (lit "interaction_required")]> ∅))
      no_kwargs
  /\ check_result false
       (Some (<[lit "error" := VStr (lit "invalid_grant")]> ∅)) no_kwargs
     = Raise (AuthenticationError VNone
                (login_message_with (lit "run:" ++ NL ++ lit "az login"))).
Proof.
  split.
  - destruct (check_result_error_description_only false
                (<[lit "error" := VStr (lit "invalid_grant")]>
                   (<[lit "id_token_claims" := VDict ∅]> ∅))
                (<[lit "error" := VStr (lit "interaction_required")]> ∅)
                no_kwargs) as (H & _);
      [vm_compute; by eexists | vm_compute; by eexists |].
    apply H. vm_compute. reflexivity.
  - destruct (check_result_error_description_only false
                (<[lit "error" := VStr (lit "invalid_grant")]> ∅)
                (<[lit "error" := VStr (lit "invalid_grant")]> ∅)
                no_kwargs) as (_ & H);
      [vm_compute; by eexists | vm_compute; by eexists |].
    apply H; vm_compute; reflexivity.
Defined.

End ResultExtra.

(* ===================================================================== *)
(** * Further properties of the claims challenge *)
(* ===================================================================== *)

Module ChallengeExtra.
Import Utf8 Base64 AuthUtil PyFacts Vocabulary Examples.

Ltac Zify.zify_post_hook ::= Z.to_euclidean_division_equations.

(** An encoding is made of whole groups of four characters. *)
Lemma b2a_base64_length (bs : bytes) :
  (length (b2a_base64 bs) mod 4 = 0)%nat.
Proof.
  induction bs as [|b0|b0 b1|b0 b1 b2 rest IH] using Base64Facts.bytes_ind3;
    [done..|].
  cbn [b2a_base64 length]. lia.
Qed.

Lemma urlsafe_b64encode_length (bs : bytes) :
  (length (urlsafe_b64encode bs) mod 4 = 0)%nat.
Proof.
  unfold urlsafe_b64encode. rewrite length_map. apply b2a_base64_length.
Qed.

(** Padding a string to the next multiple of four puts back the [=] that
    were cut off the end of an encoding. *)
Lemma padding_restored (bs : bytes) (v : str) (k : nat) :
  (k < 4)%nat -> urlsafe_b64encode bs = v ++ replicate k 61%N ->
  v ++ repeat_str (lit "=") ((- len v) mod 4) = urlsafe_b64encode bs.
Proof.
  intros Hk Henc. rewrite Henc. f_equal.
  change (lit "=") with [61%N]. rewrite ChallengeFacts.repeat_str_char.
  f_equal. pose proof (urlsafe_b64encode_length bs) as Hlen.
  rewrite Henc, length_app, length_replicate in Hlen.
  unfold len. lia.
Qed.

Section Challenge.
Variable in_cloud_console : bool.
Variable _parse_challenges : option str -> res (list HttpChallenge).

Local Abbreviation _extract_claims := (_extract_claims _parse_challenges).
Local Abbreviation handle_response_401_track1 :=
  (handle_response_401_track1 in_cloud_console _parse_challenges).

(** X12: the padding of [_extract_claims] undoes the stripping of the
    challenge: when the [claims] parameter of the single challenge is a
    base64url encoding without its trailing [=], the extractor returns the
    whole encoding. *)
Theorem _extract_claims_restores_padding
    (challenge : option str) (c : HttpChallenge)
    (bs : bytes) (v : str) (k : nat) :
  _parse_challenges challenge = Return [c] ->
  parameters c !! lit "claims" = Some v ->
  (k < 4)%nat -> urlsafe_b64encode bs = v ++ replicate k 61%N ->
  _extract_claims challenge = Return (Some (urlsafe_b64encode bs)).
Proof.
  intros Hp Hv Hk Henc.
  rewrite (ChallengeFacts._extract_claims_parsed _ challenge [c] Hp), Hv.
  by rewrite (padding_restored bs v k).
Qed.

(** The recommendation for extracted claims. *)
Lemma handle_response_401_track1_extracted
    (response : Response) (extracted : option str) :
  _extract_claims (headers_get response (lit "WWW-Authenticate"))
  = Return extracted ->
  handle_response_401_track1 response =
    (do login_command <- _generate_login_command None extracted;
     Return (revoked_sentence
             ++ login_message_with
                  (if in_cloud_console then lit "refresh Azure Portal."
                   else lit "run:" ++ NL ++ login_command))).
Proof.
  intros He. unfold AuthUtil.handle_response_401_track1. cbv zeta.
  rewrite He. cbn [bind].
  rewrite LoginExtra._generate_login_message_command. cbn [scopes claims].
  destruct (_generate_login_command None extracted); [|done].
  cbn [bind]. unfold revoked_sentence. by rewrite <- !app_assoc.
Qed.


(** X14: from the header to the command.  When the single challenge
    carries as [claims] the base64url encoding of some bytes without its
    trailing [=], the recommendation outside Cloud Shell tells to run
    [az logout] and [az login --claims] with the whole encoding, padding
    included: the claims are passed on as they are, not encoded again. *)
Theorem handle_response_401_track1_challenge
    (response : Response) (c : HttpChallenge)
    (bs : bytes) (v : str) (k : nat) :
  _parse_challenges (headers_get response (lit "WWW-Authenticate"))
  = Return [c] ->
  parameters c !! lit "claims" = Some v ->
  (k < 4)%nat -> urlsafe_b64encode bs = v ++ replicate k 61%N ->
  Forall (fun b => (b < 256)%N) bs -> bs <> [] ->
  handle_response_401_track1 response =
    Return (revoked_sentence
            ++ login_message_with
                 (if in_cloud_console then lit "refresh Azure Portal."
                  else lit "run:" ++ NL ++ lit "az logout" ++ NL
                       ++ lit "az login --claims "
                       ++ urlsafe_b64encode bs)).
Proof.
  intros Hp Hv Hk Henc Hbs Hne.
  assert (He : _extract_claims (headers_get response (lit "WWW-Authenticate"))
               = Return (Some (urlsafe_b64encode bs))).
  { rewrite (ChallengeFacts._extract_claims_parsed _ _ [c] Hp), Hv.
    by rewrite (padding_restored bs v k). }
  rewrite (handle_response_401_track1_extracted _ _ He).
  assert (Hnonempty : urlsafe_b64encode bs <> []).
  { destruct bs as [|b0 [|b1 [|b2 rest]]]; done. }
  rewrite LoginFacts._generate_login_command_claims by done.
  rewrite ClaimsFacts.encode_claims_base64; [done|].
  rewrite Base64Facts.urlsafe_b64decode_encode by done. by eexists.
Qed.

End Challenge.

Lemma _extract_claims_restores_padding_witness :
  _extract_claims (parse_claims (lit "YWJjZA")) None
  = Return (Some (urlsafe_b64encode (lit "abcd"))).
Proof.
  apply (_extract_claims_restores_padding (parse_claims (lit "YWJjZA")) None
           _ (lit "abcd") (lit "YWJjZA") 2 eq_refl).
  - vm_compute. reflexivity.
  - lia.
  - vm_compute. reflexivity.
Defined.


Lemma handle_response_401_track1_challenge_witness :
  handle_response_401_track1 false (parse_claims (lit "YWJjZA"))
    bare_response
  = Return (revoked_sentence
            ++ login_message_with
                 (lit "run:" ++ NL ++ lit "az logout" ++ NL
                  ++ lit "az login --claims "
                  ++ urlsafe_b64encode (lit "abcd"))).
Proof.
  apply (handle_response_401_track1_challenge false
           (parse_claims (lit "YWJjZA")) bare_response
           _ (lit "abcd") (lit "YWJjZA") 2 eq_refl).
  - vm_compute. reflexivity.
  - lia.
  - vm_compute. reflexivity.
  - apply ClaimsExtra.ascii_bytes. vm_compute. reflexivity.
  - discriminate.
Defined.

End ChallengeExtra.

(* ===================================================================== *)
(** * Further properties of the access token decoder *)
(* ===================================================================== *)

Module TokenExtra.
Import Utf8 Base64 AuthUtil PyFacts Vocabulary Examples.

(** The part before the first separator. *)
Lemma split_app_sep (sep : N) (h t : str) :
  ~ In sep h -> split sep (h ++ sep :: t) = h :: split sep t.
Proof.
  induction h as [|c h IH]; intros Hh; simpl.
  - by rewrite N.eqb_refl.
  - destruct (N.eqb_spec c sep) as [->|Hne]; [destruct Hh; by left|].
    rewrite IH by (intros Hin; apply Hh; by right). done.
Qed.

(** A string without the separator is a single part. *)
Lemma split_no_sep (sep : N) (p : str) : ~ In sep p -> split sep p = [p].
Proof.
  induction p as [|c p IH]; intros Hp; simpl; [done|].
  destruct (N.eqb_spec c sep) as [->|Hne]; [destruct Hp; by left|].
  rewrite IH by (intros Hin; apply Hp; by right). done.
Qed.

(** The second part of a token of two or of more parts. *)
Lemma split_second (h p : str) (tail : option str) :
  ~ In 46%N h -> ~ In 46%N p ->
  split 46 (h ++ lit "." ++ p
            ++ match tail with Some t => lit "." ++ t | None => [] end)
    !! 1%nat = Some p.
Proof.
  intros Hh Hp. change (lit ".") with [46%N]. cbn [app].
  rewrite split_app_sep by done. destruct tail as [t|].
  - cbn [app]. by rewrite split_app_sep.
  - by rewrite app_nil_r, split_no_sep.
Qed.

Ltac Zify.zify_post_hook ::= Z.to_euclidean_division_equations.

(** What holds of every digit and of the padding holds of every character
    of an encoding. *)
Lemma urlsafe_b64encode_Forall (P : N -> Prop) (bs : bytes) :
  Forall (fun b => (b < 256)%N) bs ->
  (forall v, (v < 64)%N -> P (urlsafe_encode_translation (table_b2a_base64 v))) ->
  P (urlsafe_encode_translation BASE64_PAD) ->
  Forall P (urlsafe_b64encode bs).
Proof.
  intros Hbs Hdigit Hpad. revert Hbs.
  induction bs as [|b0|b0 b1|b0 b1 b2 rest IH] using Base64Facts.bytes_ind3;
    rewrite ?Forall_cons; unfold urlsafe_b64encode; cbn [b2a_base64 map].
  - intros _. by apply Forall_nil.
  - intros [H0 _]. rewrite !Forall_cons, Forall_nil.
    repeat split; try done; apply Hdigit; lia.
  - intros (H0 & H1 & _). rewrite !Forall_cons, Forall_nil.
    repeat split; try done; apply Hdigit; lia.
  - intros (H0 & H1 & H2 & Hrest). rewrite !Forall_cons.
    repeat split; try (apply Hdigit; lia). by apply IH.
Qed.

(** No character of an encoding is a dot. *)
Lemma urlsafe_b64encode_no_dot (bs : bytes) :
  Forall (fun b => (b < 256)%N) bs -> ~ In 46%N (urlsafe_b64encode bs).
Proof.
  intros Hbs Hin.
  assert (Hall : forallb
            (fun v => negb (urlsafe_encode_translation (table_b2a_base64 v)
                            =? 46)%N) sextets = true)
    by (vm_compute; reflexivity).
  rewrite forallb_forall in Hall.
  assert (H : Forall (fun c => c <> 46%N) (urlsafe_b64encode bs)).
  { apply urlsafe_b64encode_Forall; [done| |done].
    intros v Hv Heq.
    specialize (Hall v (Base64Facts.sextets_complete v Hv)).
    rewrite Heq in Hall. done. }
  rewrite Forall_forall in H. apply (H 46%N); [|done].
  by apply list_elem_of_In.
Qed.

(** The part of a JWT, which leaves the padding out, decodes to the text
    it encodes. *)
Lemma decode_part_encoded (text : str) (raw : bytes) (v : str) (k : nat) :
  Utf8.encode text = Some raw ->
  (k < 4)%nat -> urlsafe_b64encode raw = v ++ replicate k 61%N ->
  decode_part v = Return text.
Proof.
  intros Hraw Hk Henc. unfold decode_part. cbv zeta.
  rewrite (ChallengeExtra.padding_restored raw v k) by done.
  rewrite Base64Facts.urlsafe_b64decode_encode
    by by apply Utf8Facts.encode_byte with text.
  cbn [or_raise bind]. by rewrite (Utf8Facts.decode_encode text raw).
Qed.

Section Token.
Variable json_loads : str -> option value.

Local Abbreviation decode_access_token := (decode_access_token json_loads).

(** X15: only the second part of a token is read.  For every header
    without a dot and every signature, also none at all, the result is
    that of decoding the payload: neither the header nor the signature is
    looked at, let alone verified. *)
Theorem decode_access_token_payload_only
    (header payload : str) (signature : option str) :
  ~ In 46%N header -> ~ In 46%N payload ->
  decode_access_token
    (header ++ lit "." ++ payload
     ++ match signature with Some s => lit "." ++ s | None => [] end)
  = (do decoded_str <- decode_part payload;
     or_raise JSONDecodeError (json_loads decoded_str)).
Proof.
  intros Hh Hp.
  apply TokenFacts.decode_access_token_part. by apply split_second.
Qed.

(** X16: a token whose payload is the base64url encoding, without its
    trailing [=], of the UTF-8 bytes of a text decodes to what
    [json.loads] makes of that text, and fails with
    [json.JSONDecodeError] when the text is not JSON. *)
Theorem decode_access_token_encoded_payload
    (header text payload : str) (raw : bytes) (k : nat)
    (signature : option str) :
  ~ In 46%N header ->
  Utf8.encode text = Some raw ->
  (k < 4)%nat -> urlsafe_b64encode raw = payload ++ replicate k 61%N ->
  decode_access_token
    (header ++ lit "." ++ payload
     ++ match signature with Some s => lit "." ++ s | None => [] end)
  = or_raise JSONDecodeError (json_loads text).
Proof.
  intros Hh Hraw Hk Henc.
  assert (Hp : ~ In 46%N payload).
  { intros Hin.
    apply (urlsafe_b64encode_no_dot raw);
      [by apply Utf8Facts.encode_byte with text|].
    rewrite Henc. apply in_or_app. by left. }
  rewrite (TokenFacts.decode_access_token_part json_loads _ payload)
    by by apply split_second.
  by rewrite (decode_part_encoded text raw payload k).
Qed.

End Token.

Lemma decode_access_token_payload_only_witness :
  decode_access_token loads_empty_object (lit "e30.e30")
  = (do decoded_str <- decode_part (lit "e30");
     or_raise JSONDecodeError (loads_empty_object decoded_str)).
Proof.
  apply (decode_access_token_payload_only loads_empty_object
           (lit "e30") (lit "e30") None).
  - vm_compute. intuition discriminate.
  - vm_compute. intuition discriminate.
Defined.

Lemma decode_access_token_encoded_payload_witness :
  decode_access_token loads_empty_object
    (lit "eyJhbGciOiJub25lIn0" ++ lit "." ++ lit "e30" ++ lit "." ++ lit "sig")
  = or_raise JSONDecodeError (loads_empty_object (lit "{}")).
Proof.
  apply (decode_access_token_encoded_payload loads_empty_object
           (lit "eyJhbGciOiJub25lIn0") (lit "{}") (lit "e30") (lit "{}") 1
           (Some (lit "sig"))).
  - vm_compute. intuition discriminate.
  - vm_compute. reflexivity.
  - lia.
  - vm_compute. reflexivity.
Defined.

End TokenExtra.

(* ===================================================================== *)
(** * The error path from the result to the recommendation *)
(* ===================================================================== *)

Module RecommendationExtra.
Import Utf8 Base64 AuthUtil PyFacts Vocabulary Examples.

(** X17: the recommendation of the [AuthenticationError] that
    [check_result] raises.  For a result with an [error] key it is the
    login message for the scopes and claims of the call: the command of
    [_generate_login_command] after [run:], or the request to refresh the
    portal inside Cloud Shell.  For an empty or absent result it is always
    [run:] and the bare [az login], without the closing paragraph,
    whatever the scopes, the claims and the environment are. *)
Theorem check_result_recommendation
    (in_cloud_console : bool) (result : option (gmap str value))
    (kw : kwargs) :
  (forall d cmd, result = Some d -> is_Some (d !! lit "error") ->
     _generate_login_command (scopes kw) (claims kw) = Return cmd ->
     check_result in_cloud_console result kw =
       Raise (AuthenticationError
                (get d (lit "error_description"))
                (login_message_with
                   (if in_cloud_console then lit "refresh Azure Portal."
                    else lit "run:" ++ NL ++ cmd))))
  /\ (not_result result = true ->
      check_result in_cloud_console result kw =
        Raise (AuthenticationError
                 (VStr (lit "Can't find token from MSAL cache."))
                 (lit "To re-authenticate, please run:" ++ NL
                  ++ lit "az login"))).
Proof.
  split.
  - intros d cmd -> He Hcmd. rewrite ResultFacts.check_result_error by done.
    apply ResultFacts.aad_error_handler_message.
    by rewrite LoginExtra._generate_login_message_command, Hcmd.
  - intros Hnr. unfold check_result. by rewrite Hnr.
Qed.

Lemma check_result_recommendation_witness :
  check_result false
    (Some (<[lit "error" := VStr (lit "interaction_required")]>
             (<[lit "error_description" := VStr (lit "MFA needed")]> ∅)))
    {| scopes := Some [lit "s1"; lit "s2"]; claims := None |}
  = Raise (AuthenticationError (VStr (lit "MFA needed"))
             (login_message_with
                (lit "run:" ++ NL ++ lit "az login --scope s1 s2")))
  /\ check_result true None
       {| scopes := Some [lit "s1"]; claims := Some (lit "abc") |}
     = Raise (AuthenticationError
                (VStr (lit "Can't find token from MSAL cache."))
                (lit "To re-authenticate, please run:" ++ NL
                 ++ lit "az login")).
Proof.
  split.
  - destruct (check_result_recommendation false
                (Some (<[lit "error" := VStr (lit "interaction_required")]>
                         (<[lit "error_description" :=
                              VStr (lit "MFA needed")]> ∅)))
                {| scopes := Some [lit "s1"; lit "s2"]; claims := None |})
      as (H & _).
    apply (H _ (lit "az login --scope s1 s2") eq_refl).
    + vm_compute. by eexists.
    + vm_compute. reflexivity.
  - destruct (check_result_recommendation true None
                {| scopes := Some [lit "s1"]; claims := Some (lit "abc") |})
      as (_ & H).
    apply H. reflexivity.
Defined.

Lemma well_formed_app (s t : str) :
  well_formed (s ++ t) = well_formed s && well_formed t.
Proof. unfold well_formed. apply forallb_app. Qed.

Lemma well_formed_pad (k : Z) : well_formed (repeat_str (lit "=") k) = true.
Proof.
  change (lit "=") with [61%N]. rewrite ChallengeFacts.repeat_str_char.
  unfold well_formed. induction (Z.to_nat k) as [|n IH]; [done|].
  simpl. by rewrite IH.
Qed.

Section Response.
Variable in_cloud_console : bool.
Variable _parse_challenges : option str -> res (list HttpChallenge).

Local Abbreviation handle_response_401_track1 :=
  (handle_response_401_track1 in_cloud_console _parse_challenges).

(** X18: once the header is parsed, [handle_response_401_track1] can fail
    in one way only, with the [UnicodeEncodeError] of [encode_claims], so
    never with an [AuthenticationError]; it returns its recommendation
    whenever the claims of the single challenge, if there are any, hold
    no character that [str.encode()] rejects. *)
Theorem handle_response_401_track1_errors
    (response : Response) (cs : list HttpChallenge) :
  _parse_challenges (headers_get response (lit "WWW-Authenticate"))
  = Return cs ->
  (forall e, handle_response_401_track1 response = Raise e ->
     e = UnicodeEncodeError)
  /\ ((forall c v, cs = [c] -> parameters c !! lit "claims" = Some v ->
       well_formed v = true) ->
      returns (handle_response_401_track1 response) = true).
Proof.
  intros Hp.
  pose proof (ChallengeFacts._extract_claims_parsed _ _ cs Hp) as He.
  rewrite (ChallengeExtra.handle_response_401_track1_extracted _ _ _ _ He).
  split.
  - intros e Hraise.
    destruct (_generate_login_command None _) as [cmd|e'] eqn:Hcmd; [done|].
    injection Hraise as ->.
    by destruct (LoginExtra._generate_login_command_raise_kind _ _ _ Hcmd).
  - intros Hwf.
    destruct (_generate_login_command None _) as [cmd|e'] eqn:Hcmd; [done|].
    exfalso.
    destruct (LoginExtra._generate_login_command_raise_kind _ _ _ Hcmd)
      as (_ & c & Hc & _ & _ & Hbad).
    destruct cs as [|ch [|ch' cs]]; [done| |done].
    destruct (parameters ch !! lit "claims") as [v|] eqn:Hv; [|done].
    injection Hc as <-.
    rewrite well_formed_app, (Hwf ch v eq_refl Hv), well_formed_pad in Hbad.
    done.
Qed.

End Response.

Lemma handle_response_401_track1_errors_witness :
  returns (handle_response_401_track1 true (parse_claims [0xE9%N; 0x20AC%N])
             bare_response) = true.
Proof.
  destruct (handle_response_401_track1_errors true
              (parse_claims [0xE9%N; 0x20AC%N]) bare_response _ eq_refl)
    as (_ & H).
  apply H. intros c v [= <-] Hv. vm_compute in Hv.
  injection Hv as <-. vm_compute. reflexivity.
Defined.

End RecommendationExtra.
